(** * miti-loki: the Cloudflare Worker that forwards log submissions to Loki

    A shallow embedding of [src/index.js] (the label-aware variant of the
    worker: [validateLabelName], [handleRequest], [handleOptions] and the
    module's [fetch] entry point), followed by the properties of the
    specification stated over it.

    Conventions of the embedding
    - JavaScript strings are [string]s (sequences of code units); the only
      character tests of the program are on ASCII ranges.
    - A value produced by [JSON.parse] is a [jsval]; a JavaScript object is
      the list of its own properties in [Object.entries] order.
    - Numbers, the text of engine errors, [JSON.parse] and [btoa] belong to
      the JavaScript runtime, not to the program: they form the interface
      [Runtime].
    - Statements complete normally, by [return] or by [throw]; the awaited
      operations ([request.text()], [fetch]) and [Date.now()] are the
      nodes of a small program tree, executed against a [World]. *)

From Stdlib Require Import Ascii String List Bool Arith ZArith Lia.
From stdpp Require Import base option list strings pretty gmap.

Set Default Proof Using "Type".
Local Open Scope string_scope.
Local Open Scope list_scope.

(** ** Strings *)

Module Str.

(** [!s] on a string: only the empty string is falsy. *)
Definition truthy (s : string) : bool :=
  match s with EmptyString => false | String _ _ => true end.

(** [s.startsWith(p)] *)
Fixpoint startsWith (p s : string) : bool :=
  match p, s with
  | EmptyString, _ => true
  | String a p', String b s' => if Ascii.eqb a b then startsWith p' s' else false
  | String _ _, EmptyString => false
  end.

(** [s.endsWith(p)]: some suffix of [s] is [p]. *)
Fixpoint endsWith (p s : string) : bool :=
  String.eqb p s ||
  match s with
  | EmptyString => false
  | String _ s' => endsWith p s'
  end.

(** [xs.join(sep)] *)
Fixpoint join (sep : string) (xs : list string) : string :=
  match xs with
  | [] => EmptyString
  | [x] => x
  | x :: rest => x ++ sep ++ join sep rest
  end.

Fixpoint last_char (s : string) : option ascii :=
  match s with
  | EmptyString => None
  | String c EmptyString => Some c
  | String _ s' => last_char s'
  end.

Definition first_char (s : string) : option ascii :=
  match s with EmptyString => None | String c _ => Some c end.

End Str.

(** ** Regular expressions, as far as the program's literal needs them *)

Module Regex.

Inductive regex : Type :=
| Void                                  (* matches nothing *)
| Eps                                   (* matches the empty string *)
| Class (p : ascii -> bool)             (* a bracket expression *)
| Cat (r1 r2 : regex)
| Alt (r1 r2 : regex)
| Star (r : regex).

Fixpoint nullable (r : regex) : bool :=
  match r with
  | Void => false
  | Eps => true
  | Class _ => false
  | Cat r1 r2 => nullable r1 && nullable r2
  | Alt r1 r2 => nullable r1 || nullable r2
  | Star _ => true
  end.

Fixpoint deriv (c : ascii) (r : regex) : regex :=
  match r with
  | Void => Void
  | Eps => Void
  | Class p => if p c then Eps else Void
  | Cat r1 r2 =>
      if nullable r1 then Alt (Cat (deriv c r1) r2) (deriv c r2)
      else Cat (deriv c r1) r2
  | Alt r1 r2 => Alt (deriv c r1) (deriv c r2)
  | Star r1 => Cat (deriv c r1) (Star r1)
  end.

(** [/^r$/.test(s)]: the pattern is anchored at both ends and has no
    flags, so the whole of [s] has to match. *)
Fixpoint test (r : regex) (s : string) : bool :=
  match s with
  | EmptyString => nullable r
  | String c s' => test (deriv c r) s'
  end.

(** The language of a regular expression, as a relation. *)
Inductive matches : regex -> string -> Prop :=
| m_eps : matches Eps EmptyString
| m_class p c : p c = true -> matches (Class p) (String c EmptyString)
| m_cat r1 r2 s1 s2 : matches r1 s1 -> matches r2 s2 -> matches (Cat r1 r2) (s1 ++ s2)
| m_alt_l r1 r2 s : matches r1 s -> matches (Alt r1 r2) s
| m_alt_r r1 r2 s : matches r2 s -> matches (Alt r1 r2) s
| m_star_nil r : matches (Star r) EmptyString
| m_star_cons r s1 s2 : matches r s1 -> matches (Star r) s2 -> matches (Star r) (s1 ++ s2).

(** What a starred bracket expression matches. *)
Fixpoint all_chars (p : ascii -> bool) (s : string) : bool :=
  match s with
  | EmptyString => true
  | String c s' => p c && all_chars p s'
  end.

End Regex.

(** ** JavaScript values, errors and the runtime interface *)

(** The values the worker handles: what [JSON.parse] returns, and
    [undefined] for a property that is not there. An object is the list of
    its own enumerable properties, in [Object.entries] order. *)
Unset Elimination Schemes.
Inductive jsval (number : Type) : Type :=
| JUndefined
| JNull
| JBool (b : bool)
| JNum (n : number)
| JStr (s : string)
| JArr (xs : list (jsval number))
| JObj (props : list (string * jsval number)).
Set Elimination Schemes.

Arguments JUndefined {number}.
Arguments JNull {number}.
Arguments JBool {number} b.
Arguments JNum {number} n.
Arguments JStr {number} s.
Arguments JArr {number} xs.
Arguments JObj {number} props.

(** The errors the engine can raise while the worker runs: [TypeError]s,
    and the [RangeError] of the [Response] constructor. *)
Inductive type_error : Type :=
| Property_of_null (prop : string)        (* [null.prop] *)
| Property_of_undefined (prop : string)   (* [undefined.prop] *)
| Not_a_function (callee : string)        (* [x.f()] with [x.f] not callable *)
| No_primitive_value                      (* an object that converts to no string *)
| Status_out_of_range (st : nat)          (* [new Response(_, {status})], a [RangeError] *)
| Invalid_status_text                     (* [new Response(_, {statusText})] *)
| Null_body_status (st : nat).            (* a body given with a null-body status *)

Inductive js_error : Type :=
| TypeError (t : type_error)
| HostError (message : string).  (* a [SyntaxError] of [JSON.parse], a rejected promise *)

(** What the JavaScript engine and the Workers platform provide. *)
Class Runtime (number : Type) : Type := {
  (** [!!n]: false on [0], [-0] and [NaN] *)
  num_truthy : number -> bool;
  (** [n.toString()] *)
  num_toString : number -> string;
  (** [n * m] *)
  num_mul : number -> number -> number;
  (** the literal [1000000] *)
  num_1000000 : number;
  (** [JSON.parse(text)]: the value, or the [SyntaxError] thrown *)
  JSON_parse : string -> js_error + jsval number;
  (** [btoa(text)] *)
  btoa : string -> string;
  (** the [message] of an engine [TypeError] *)
  type_error_text : type_error -> string
}.

(** [error.message] *)
Definition error_message `{Runtime number} (e : js_error) : string :=
  match e with
  | TypeError t => type_error_text t
  | HostError message => message
  end.

(** A double quote, for the message texts that contain one. *)
Definition dq : string := String "034"%char EmptyString.

Module Js.
Section Values.
Context {number : Type} `{!Runtime number}.

Local Abbreviation jsval := (jsval number).

(** [!!v] *)
Definition truthy (v : jsval) : bool :=
  match v with
  | JUndefined | JNull => false
  | JBool b => b
  | JNum n => num_truthy n
  | JStr s => Str.truthy s
  | JArr _ | JObj _ => true
  end.

Inductive js_type : Type :=
| T_undefined | T_object | T_boolean | T_number | T_string.

Definition js_type_eqb (a b : js_type) : bool :=
  match a, b with
  | T_undefined, T_undefined | T_object, T_object | T_boolean, T_boolean
  | T_number, T_number | T_string, T_string => true
  | _, _ => false
  end.

(** [typeof v] *)
Definition typeof (v : jsval) : js_type :=
  match v with
  | JUndefined => T_undefined
  | JNull | JArr _ | JObj _ => T_object
  | JBool _ => T_boolean
  | JNum _ => T_number
  | JStr _ => T_string
  end.

(** [Array.isArray(v)] *)
Definition Array_isArray (v : jsval) : bool :=
  match v with JArr _ => true | _ => false end.

(** [v === null] *)
Definition is_null (v : jsval) : bool :=
  match v with JNull => true | _ => false end.

(** The own property [key] of an object, [undefined] when it has none. *)
Fixpoint own_property (props : list (string * jsval)) (key : string) : jsval :=
  match props with
  | [] => JUndefined
  | (k, v) :: rest => if String.eqb k key then v else own_property rest key
  end.

Definition has_own_property (props : list (string * jsval)) (key : string) : bool :=
  existsb (fun kv => String.eqb (fst kv) key) props.

(** [v.key] for a key that no prototype defines ([message], [timestamp],
    [metadata]): reading it from [null] or [undefined] throws, a
    primitive or an array has no such property. *)
Definition get (v : jsval) (key : string) : js_error + jsval :=
  match v with
  | JNull => inl (TypeError (Property_of_null key))
  | JUndefined => inl (TypeError (Property_of_undefined key))
  | JObj props => inr (own_property props key)
  | JBool _ | JNum _ | JStr _ | JArr _ => inr JUndefined
  end.

(** [Object.entries(v)] and [Object.keys(v)], on a plain object (the
    worker calls them after it has excluded everything else). *)
Definition Object_entries (v : jsval) : list (string * jsval) :=
  match v with JObj props => props | _ => [] end.

Definition Object_keys (v : jsval) : list string :=
  map fst (Object_entries v).

(** [String(v)]; [None] when the conversion throws. An object of JSON
    data converts through [Object.prototype.toString] unless an own
    [toString] property (never callable in JSON data) hides it; an array
    is joined, [null] and [undefined] elements giving the empty string. *)
Fixpoint to_string (v : jsval) : option string :=
  match v with
  | JUndefined => Some "undefined"
  | JNull => Some "null"
  | JBool true => Some "true"
  | JBool false => Some "false"
  | JNum n => Some (num_toString n)
  | JStr s => Some s
  | JObj props =>
      if has_own_property props "toString" then None else Some "[object Object]"
  | JArr xs =>
      (fix elements (xs : list jsval) : option (list string) :=
         match xs with
         | [] => Some []
         | x :: rest =>
             match (match x with
                    | JUndefined | JNull => Some EmptyString
                    | _ => to_string x
                    end), elements rest with
             | Some s, Some ss => Some (s :: ss)
             | _, _ => None
             end
         end) xs
      ≫= fun parts => Some (Str.join "," parts)
  end.

(** [v.toString()], a method call: on an object with an own [toString]
    property the callee is not a function. *)
Definition toString (callee : string) (v : jsval) : js_error + string :=
  match v with
  | JNull => inl (TypeError (Property_of_null "toString"))
  | JUndefined => inl (TypeError (Property_of_undefined "toString"))
  | JObj props =>
      if has_own_property props "toString"
      then inl (TypeError (Not_a_function callee))
      else inr "[object Object]"
  | _ =>
      match to_string v with
      | Some s => inr s
      | None => inl (TypeError No_primitive_value)
      end
  end.

End Values.
End Js.

(** ** Requests, responses and the outbound call *)

(** A [Response]: status, status text, headers and body ([None] for the
    [null] body). *)
Record Response : Type := {
  status : nat;
  statusText : string;
  headers : list (string * string);
  body : option string
}.

(** [new Response(text, { status, headers })] *)
Definition new_Response (text : option string) (st : nat) (sttext : string)
    (hs : list (string * string)) : Response :=
  {| status := st; statusText := sttext; headers := hs; body := text |}.

(** The statuses that allow no body. *)
Definition null_body_status (st : nat) : bool :=
  (st =? 101)%nat || (st =? 103)%nat || (st =? 204)%nat || (st =? 205)%nat
  || (st =? 304)%nat.

(** The characters of a reason phrase: tab, space, the visible characters
    and the code units from 128 on. *)
Definition reason_phrase_char (c : ascii) : bool :=
  (nat_of_ascii c =? 9)%nat || (nat_of_ascii c =? 32)%nat
  || ((33 <=? nat_of_ascii c)%nat && (nat_of_ascii c <=? 126)%nat)
  || (128 <=? nat_of_ascii c)%nat.

(** What the [Response] constructor throws, in the order of its checks: a
    [RangeError] for a status outside 200..599, a [TypeError] for a status
    text that is no reason phrase, a [TypeError] for a body given together
    with a null-body status. *)
Definition Response_init_error (text : option string) (st : nat) (sttext : string)
    : option js_error :=
  if negb ((200 <=? st)%nat && (st <=? 599)%nat)
  then Some (TypeError (Status_out_of_range st))
  else if negb (Regex.all_chars reason_phrase_char sttext)
  then Some (TypeError Invalid_status_text)
  else match text with
       | Some _ => if null_body_status st then Some (TypeError (Null_body_status st))
                   else None
       | None => None
       end.

(** [new Response(text, { status, statusText, headers })] where the status
    and the status text are not literals of the program: the response, or
    the error thrown. *)
Definition new_Response_checked (text : option string) (st : nat) (sttext : string)
    (hs : list (string * string)) : js_error + Response :=
  match Response_init_error text st sttext with
  | Some e => inl e
  | None => inr (new_Response text st sttext hs)
  end.

(** [Response.redirect(url, st)] *)
Definition Response_redirect (url : string) (st : nat) : Response :=
  new_Response None st EmptyString [("Location", url)].

(** The inbound request: its method, the entries of
    [new URL(request.url).searchParams] in order, and [request.headers.get]
    ([None] for [null]). The body is read by an awaited call. *)
Record Request : Type := {
  method : string;
  searchParams_entries : list (string * string);
  headers_get : string -> option string
}.

(** The worker's environment bindings ([None] for an unset one). *)
Record Env : Type := {
  LOKI_HOST : option string;
  LOKI_USERNAME : option string;
  LOKI_PASSWORD : option string;
  LOKI_PORT : option string
}.

(** [!!x] for a binding or a header: unset, [null] and the empty string
    are falsy. *)
Definition opt_truthy (x : option string) : bool :=
  match x with Some s => Str.truthy s | None => false end.

(** [x || d] *)
Definition or_else (x : option string) (d : string) : string :=
  match x with
  | Some s => if Str.truthy s then s else d
  | None => d
  end.

(** The text an unset binding interpolates to in a template literal. *)
Definition interpolate (x : option string) : string :=
  match x with Some s => s | None => "undefined" end.

(** ** [validateLabelName] *)

(** [lo-hi] in a bracket expression: a range of code units. *)
Definition in_range (lo hi c : ascii) : bool :=
  (nat_of_ascii lo <=? nat_of_ascii c)%nat && (nat_of_ascii c <=? nat_of_ascii hi)%nat.

(** [[a-zA-Z_:]] *)
Definition label_first (c : ascii) : bool :=
  in_range "a" "z" c || in_range "A" "Z" c || Ascii.eqb c "_" || Ascii.eqb c ":".

(** [[a-zA-Z0-9_:]] *)
Definition label_rest (c : ascii) : bool :=
  in_range "a" "z" c || in_range "A" "Z" c || in_range "0" "9" c
  || Ascii.eqb c "_" || Ascii.eqb c ":".

(** [/^[a-zA-Z_:][a-zA-Z0-9_:]*$/] *)
Definition label_regex : Regex.regex :=
  Regex.Cat (Regex.Class label_first) (Regex.Star (Regex.Class label_rest)).

Definition validateLabelName (name : string) : bool :=
  if negb (Regex.test label_regex name) then false
  else if Str.startsWith "_" name && Str.endsWith "_" name then false
  else true.

Section Worker.
Context {number : Type} `{!Runtime number}.

Local Abbreviation jsval := (jsval number).

(** One stream of the push payload: the label set and the value-tuples,
    each a JavaScript array of two or three elements. *)
Record LokiStream : Type := {
  stream : gmap string string;
  values : list (list jsval)
}.

Record LokiPayload : Type := { streams : list LokiStream }.

(** The second argument of [fetch]. The body is [JSON.stringify] of the
    payload; the embedding keeps the payload itself. *)
Record FetchInit : Type := {
  init_method : string;
  init_headers : list (string * string);
  init_body : LokiPayload
}.

(** What the worker looks at in Loki's response; [lr_text] is the outcome
    of awaiting [lokiResponse.text()]. *)
Record LokiResponse : Type := {
  lr_status : nat;
  lr_statusText : string;
  lr_content_type : option string;
  lr_text : js_error + string
}.

(** *** Programs

    A statement completes normally, leaves the function by [return], or
    throws. The remaining nodes are the operations whose answer comes
    from outside the worker. *)
Inductive prog (A : Type) : Type :=
| Ret (a : A)
| Return (r : Response)
| Throw (e : js_error)
| AwaitRequestText (k : js_error + string -> prog A)
| DateNow (k : number -> prog A)
| AwaitFetch (url : string) (init : FetchInit) (k : js_error + LokiResponse -> prog A).

Arguments Ret {A} a.
Arguments Return {A} r.
Arguments Throw {A} e.
Arguments AwaitRequestText {A} k.
Arguments DateNow {A} k.
Arguments AwaitFetch {A} url init k.

Fixpoint bind {A B : Type} (m : prog A) (f : A -> prog B) : prog B :=
  match m with
  | Ret a => f a
  | Return r => Return r
  | Throw e => Throw e
  | AwaitRequestText k => AwaitRequestText (fun x => bind (k x) f)
  | DateNow k => DateNow (fun x => bind (k x) f)
  | AwaitFetch url init k => AwaitFetch url init (fun x => bind (k x) f)
  end.

(** [try { m } catch (error) { h error }]: a [return] inside [m] is not
    intercepted. *)
Fixpoint try_catch {A : Type} (m : prog A) (h : js_error -> prog A) : prog A :=
  match m with
  | Ret a => Ret a
  | Return r => Return r
  | Throw e => h e
  | AwaitRequestText k => AwaitRequestText (fun x => try_catch (k x) h)
  | DateNow k => DateNow (fun x => try_catch (k x) h)
  | AwaitFetch url init k => AwaitFetch url init (fun x => try_catch (k x) h)
  end.

#[global] Instance prog_ret : MRet prog := fun A a => Ret a.
#[global] Instance prog_bind : MBind prog := fun A B f m => bind m f.

(** An expression that evaluates to a value or throws. *)
Definition lift {A : Type} (r : js_error + A) : prog A :=
  match r with inl e => Throw e | inr a => Ret a end.

(** [await request.text()] *)
Definition request_text : prog string := AwaitRequestText lift.

(** [Date.now()] *)
Definition Date_now : prog number := DateNow Ret.

(** [await fetch(url, init)] *)
Definition fetch (url : string) (init : FetchInit) : prog LokiResponse :=
  AwaitFetch url init lift.


(** *** [handleRequest] *)

Definition cors_origin : list (string * string) :=
  [("Access-Control-Allow-Origin", "*")].

(** [new Response(text, { status: st, headers: { 'Access-Control-Allow-Origin': '*' } })] *)
Definition plain_response (text : string) (st : nat) : Response :=
  new_Response (Some text) st EmptyString cors_origin.

Definition msg_missing_message : string :=
  "Each log entry must have a " +:+ dq +:+ "message" +:+ dq +:+ " field".

Definition msg_metadata_object : string := "Metadata must be an object".

Definition msg_nested (key : string) : string :=
  "Metadata field " +:+ dq +:+ key +:+ dq
  +:+ " contains nested object. Only flat key-value pairs are allowed.".

Definition msg_label (key : string) : string :=
  "Invalid label name " +:+ dq +:+ key +:+ dq
  +:+ ". Label names must match [a-zA-Z_:][a-zA-Z0-9_:]* and cannot start and end with double underscores.".

(** The loop over [Object.entries(entry.metadata)]. *)
Fixpoint check_flat (entries : list (string * jsval)) : prog unit :=
  match entries with
  | [] => Ret tt
  | (key, value) :: rest =>
      if Js.js_type_eqb (Js.typeof value) Js.T_object && negb (Js.is_null value)
      then Return (plain_response (msg_nested key) 400)
      else check_flat rest
  end.

(** One iteration of the loop over [logs]; [vals] is the array [values]
    before the iteration, the result is the array after it. *)
Definition process_entry (entry : jsval) (vals : list (list jsval))
    : prog (list (list jsval)) :=
  message ← lift (Js.get entry "message");
  if negb (Js.truthy message)
  then Return (plain_response msg_missing_message 400)
  else
    entry_timestamp ← lift (Js.get entry "timestamp");
    timestamp ← (if Js.truthy entry_timestamp then Ret entry_timestamp
                 else now ← Date_now;
                      Ret (JStr (num_toString (num_mul now num_1000000))));
    metadata ← lift (Js.get entry "metadata");
    if Js.truthy metadata then
      if negb (Js.js_type_eqb (Js.typeof metadata) Js.T_object)
         || Js.Array_isArray metadata
      then Return (plain_response msg_metadata_object 400)
      else
        check_flat (Js.Object_entries metadata);;
        if (0 <? length (Js.Object_keys metadata))%nat then
          ts ← lift (Js.toString "timestamp.toString" timestamp);
          Ret (vals ++ [[JStr ts; message; metadata]])
        else
          ts ← lift (Js.toString "timestamp.toString" timestamp);
          Ret (vals ++ [[JStr ts; message]])
    else
      ts ← lift (Js.toString "timestamp.toString" timestamp);
      Ret (vals ++ [[JStr ts; message]]).

(** [for (const entry of logs) { ... }] *)
Fixpoint build_values (logs : list jsval) (vals : list (list jsval))
    : prog (list (list jsval)) :=
  match logs with
  | [] => Ret vals
  | entry :: rest => vals' ← process_entry entry vals; build_values rest vals'
  end.

(** [for (const [key, value] of url.searchParams.entries()) { ... }] *)
Fixpoint build_stream (entries : list (string * string)) (st : gmap string string)
    : prog (gmap string string) :=
  match entries with
  | [] => Ret st
  | (key, value) :: rest =>
      if negb (validateLabelName key)
      then Return (plain_response (msg_label key) 400)
      else build_stream rest (<[key := value]> st)
  end.

(** [Array.isArray(data) ? data : [data]] *)
Definition logs_of (data : jsval) : list jsval :=
  match data with JArr xs => xs | _ => [data] end.

(** [request.headers.get('CF-Connecting-IP') ||
     request.headers.get('X-Forwarded-For') || 'unknown'] *)
Definition clientIP (request : Request) : string :=
  match headers_get request "CF-Connecting-IP" with
  | Some ip => if Str.truthy ip then ip
               else or_else (headers_get request "X-Forwarded-For") "unknown"
  | None => or_else (headers_get request "X-Forwarded-For") "unknown"
  end.

Definition lokiPort (env : Env) : string := or_else (LOKI_PORT env) "443".

Definition protocol (env : Env) : string :=
  if String.eqb (lokiPort env) "443" then "https" else "http".

Definition lokiUrl (env : Env) : string :=
  protocol env +:+ "://" +:+ interpolate (LOKI_HOST env) +:+ ":" +:+ lokiPort env
  +:+ "/loki/api/v1/push".

Definition auth (env : Env) : string :=
  btoa (interpolate (LOKI_USERNAME env) +:+ ":" +:+ interpolate (LOKI_PASSWORD env)).

Definition relayed_response (lokiResponse : LokiResponse) (responseText : string)
    : js_error + Response :=
  new_Response_checked (Some responseText) (lr_status lokiResponse)
    (lr_statusText lokiResponse)
    [("Content-Type", or_else (lr_content_type lokiResponse) "text/plain");
     ("Access-Control-Allow-Origin", "*");
     ("Access-Control-Allow-Methods", "POST, OPTIONS");
     ("Access-Control-Allow-Headers", "Content-Type")].

(** The body of the [try] block. *)
Definition forward (request : Request) (env : Env) : prog Empty_set :=
  body ← request_text;
  if negb (Str.truthy body)
  then Return (plain_response "Request body is required" 400)
  else
    data ← match JSON_parse body with
           | inl parseError =>
               Return (plain_response ("Invalid JSON: " +:+ error_message parseError) 400)
           | inr data => Ret data
           end;
    let logs := logs_of data in
    vals ← build_values logs [];
    let clientIP := clientIP request in
    st ← build_stream (searchParams_entries request) ∅;
    let st := <["ip" := clientIP]> (<["proxy" := "miti-loki"]> st) in
    let lokiPayload := {| streams := [ {| stream := st; values := vals |} ] |} in
    lokiResponse ← fetch (lokiUrl env)
      {| init_method := "POST";
         init_headers := [("Content-Type", "application/json");
                          ("Authorization", "Basic " +:+ auth env)];
         init_body := lokiPayload |};
    responseText ← lift (lr_text lokiResponse);
    response ← lift (relayed_response lokiResponse responseText);
    Return response.

Definition handleRequest (request : Request) (env : Env) : prog Empty_set :=
  if String.eqb (method request) "GET"
  then Return (Response_redirect "https://github.com/tiennm99/miti-loki" 302)
  else if negb (String.eqb (method request) "POST")
  then Return (plain_response "Method not allowed. Please use POST." 405)
  else if negb (opt_truthy (LOKI_HOST env)) || negb (opt_truthy (LOKI_USERNAME env))
          || negb (opt_truthy (LOKI_PASSWORD env))
  then Return (plain_response "Server configuration error: Missing Loki credentials" 500)
  else
    try_catch (forward request env)
      (fun error =>
         Return (plain_response ("Error forwarding to Loki: " +:+ error_message error) 500)).

(** *** [handleOptions] and the module's [fetch] handler *)

Definition handleOptions (request : Request) : Response :=
  new_Response None 204 EmptyString
    [("Access-Control-Allow-Origin", "*");
     ("Access-Control-Allow-Methods", "POST, OPTIONS");
     ("Access-Control-Allow-Headers", "Content-Type");
     ("Access-Control-Max-Age", "86400")].

Definition worker_fetch (request : Request) (env : Env) : prog Empty_set :=
  if String.eqb (method request) "OPTIONS"
  then Return (handleOptions request)
  else handleRequest request env.

(** *** Execution

    The world answers the awaited calls and the clock. A run threads the
    trace of the operations performed so far; the n-th call of
    [Date.now()] reads [clock n]. *)
Record World : Type := {
  request_body : js_error + string;
  clock : nat -> number;
  backend : string -> FetchInit -> js_error + LokiResponse
}.

Inductive event : Type :=
| E_request_text
| E_date_now
| E_fetch (url : string) (init : FetchInit).

Inductive completion (A : Type) : Type :=
| Normal (a : A)
| Returned (r : Response)
| Thrown (e : js_error).

Arguments Normal {A} a.
Arguments Returned {A} r.
Arguments Thrown {A} e.

Definition is_date_now (ev : event) : bool :=
  match ev with E_date_now => true | _ => false end.

Definition is_fetch (ev : event) : bool :=
  match ev with E_fetch _ _ => true | _ => false end.

Definition is_request_text (ev : event) : bool :=
  match ev with E_request_text => true | _ => false end.

(** The number of clock readings in a trace. *)
Definition ticks (t : list event) : nat := length (List.filter is_date_now t).

Fixpoint run {A : Type} (w : World) (t : list event) (m : prog A)
    : list event * completion A :=
  match m with
  | Ret a => (t, Normal a)
  | Return r => (t, Returned r)
  | Throw e => (t, Thrown e)
  | AwaitRequestText k => run w (t ++ [E_request_text]) (k (request_body w))
  | DateNow k => run w (t ++ [E_date_now]) (k (clock w (ticks t)))
  | AwaitFetch url init k => run w (t ++ [E_fetch url init]) (k (backend w url init))
  end.

(** The payloads sent to the backend during a run. *)
Definition fetched (t : list event) : list (string * FetchInit) :=
  omap (fun ev => match ev with E_fetch url init => Some (url, init) | _ => None end) t.

(** The response of the worker in a world: the value the promise of
    [handleRequest] resolves to, or the error it rejects with. *)
Definition respond (w : World) (request : Request) (env : Env)
    : list event * (js_error + Response) :=
  match run w [] (handleRequest request env) with
  | (t, Returned r) => (t, inr r)
  | (t, Thrown e) => (t, inl e)
  | (t, Normal a) => match a with end
  end.

End Worker.

Arguments Ret {number A} a.
Arguments Return {number A} r.
Arguments Throw {number A} e.
Arguments AwaitRequestText {number A} k.
Arguments DateNow {number A} k.
Arguments AwaitFetch {number A} url init k.
Arguments Normal {A} a.
Arguments Returned {A} r.
Arguments Thrown {A} e.
Arguments LokiStream : clear implicits.
Arguments LokiPayload : clear implicits.
Arguments FetchInit : clear implicits.
Arguments World : clear implicits.
Arguments event : clear implicits.

(** ** The notions the specification speaks of *)

Section Notions.
Context {number : Type} `{!Runtime number}.

Local Abbreviation jsval := (jsval number).

(** The value of [entry.key]; [undefined] where reading it throws. *)
Definition field (entry : jsval) (key : string) : jsval :=
  match Js.get entry key with inr v => v | inl _ => JUndefined end.

(** The entry has a non-empty (truthy) [message]. *)
Definition has_message (entry : jsval) : bool := Js.truthy (field entry "message").

(** [null] (or [undefined]) in the place of an entry. *)
Definition nullish (v : jsval) : bool :=
  match v with JNull | JUndefined => true | _ => false end.

(** A scalar: string, number, boolean or null. *)
Definition scalar (v : jsval) : bool :=
  match v with JArr _ | JObj _ => false | _ => true end.

(** A non-array object whose every value is a scalar. *)
Definition flat_object (v : jsval) : bool :=
  match v with
  | JObj props => forallb (fun kv => scalar (snd kv)) props
  | _ => false
  end.

(** The metadata of the entry is absent (falsy) or a flat object. *)
Definition metadata_ok (entry : jsval) : bool :=
  negb (Js.truthy (field entry "metadata")) || flat_object (field entry "metadata").

(** The timestamp of the entry is absent (falsy) or has a text form. *)
Definition timestamp_ok (entry : jsval) : bool :=
  negb (Js.truthy (field entry "timestamp"))
  || match Js.toString "timestamp.toString" (field entry "timestamp") with
     | inr _ => true
     | inl _ => false
     end.

(** A valid log entry. *)
Definition good_entry (entry : jsval) : bool :=
  has_message entry && metadata_ok entry && timestamp_ok entry.

(** An object with at least one key. *)
Definition has_keys (v : jsval) : bool :=
  match v with JObj (_ :: _) => true | _ => false end.

(** The value-tuple of an entry, up to the text of its timestamp. *)
Definition tuple_for (entry : jsval) (tuple : list jsval) : Prop :=
  exists ts : string,
    tuple = JStr ts :: field entry "message"
            :: (if has_keys (field entry "metadata")
                then [field entry "metadata"] else []).

(** The synthesized timestamp: [(Date.now() * 1000000).toString()]. *)
Definition default_timestamp (now : number) : string :=
  num_toString (num_mul now num_1000000).

(** The text of the timestamp of an entry processed when the clock
    reads [now]. *)
Definition timestamp_text (now : number) (entry : jsval) : string :=
  if Js.truthy (field entry "timestamp")
  then match Js.toString "timestamp.toString" (field entry "timestamp") with
       | inr text => text
       | inl _ => EmptyString
       end
  else default_timestamp now.

(** The value-tuple of an entry processed when the clock reads [now]. *)
Definition tuple_of (now : number) (entry : jsval) : list jsval :=
  JStr (timestamp_text now entry) :: field entry "message"
  :: (if has_keys (field entry "metadata") then [field entry "metadata"] else []).

(** The first key, in property order, whose value is a nested object or
    array. *)
Fixpoint first_nested (props : list (string * jsval)) : option string :=
  match props with
  | [] => None
  | (key, value) :: rest => if scalar value then first_nested rest else Some key
  end.

(** The trace after the timestamp of the entry has been determined: the
    clock is read when the entry brings no timestamp. *)
Definition after_timestamp (t : list (event number)) (entry : jsval)
    : list (event number) :=
  if Js.truthy (field entry "timestamp") then t else t ++ [E_date_now].

(** What the iteration for [entry] does, case by case: the trace it
    leaves and how it completes when the clock reads [now]. *)
Definition entry_trace (t : list (event number)) (entry : jsval)
    : list (event number) :=
  if nullish entry || negb (has_message entry) then t else after_timestamp t entry.

(** The timestamp the iteration works with. *)
Definition timestamp_value (now : number) (entry : jsval) : jsval :=
  if Js.truthy (field entry "timestamp") then field entry "timestamp"
  else JStr (default_timestamp now).

Definition entry_completion (now : number) (entry : jsval)
    (vals : list (list jsval)) : completion (list (list jsval)) :=
  let push :=
    match Js.toString "timestamp.toString" (timestamp_value now entry) with
    | inl e => Thrown e
    | inr text =>
        Normal (vals ++ [JStr text :: field entry "message"
                         :: (if has_keys (field entry "metadata")
                             then [field entry "metadata"] else [])])
    end in
  match Js.get entry "message" with
  | inl e => Thrown e
  | inr message =>
      if negb (Js.truthy message)
      then Returned (plain_response msg_missing_message 400)
      else if negb (Js.truthy (field entry "metadata")) then push
      else
        match field entry "metadata" with
        | JObj props =>
            match first_nested props with
            | Some key => Returned (plain_response (msg_nested key) 400)
            | None => push
            end
        | _ => Returned (plain_response msg_metadata_object 400)
        end
  end.

(** The entry with its [metadata] property removed. *)
Definition without_metadata (entry : jsval) : jsval :=
  match entry with
  | JObj props => JObj (List.filter (fun kv => negb (String.eqb (fst kv) "metadata")) props)
  | _ => entry
  end.

(** The entry with its [timestamp] property removed. *)
Definition without_timestamp (entry : jsval) : jsval :=
  match entry with
  | JObj props => JObj (List.filter (fun kv => negb (String.eqb (fst kv) "timestamp")) props)
  | _ => entry
  end.

(** The worker is configured: host, username and password are set. *)
Definition configured (env : Env) : bool :=
  opt_truthy (LOKI_HOST env) && opt_truthy (LOKI_USERNAME env)
  && opt_truthy (LOKI_PASSWORD env).

(** A POST to a configured worker whose body is non-empty text that
    parses to [data]. *)
Definition submission (w : World number) (request : Request) (env : Env)
    (data : jsval) : Prop :=
  method request = "POST" /\ configured env = true /\
  exists text : string,
    request_body w = inr text /\ Str.truthy text = true /\ JSON_parse text = inr data.

(** An entry whose iteration can throw: it is [null], or its timestamp
    has no text form. *)
Definition may_throw (entry : jsval) : bool :=
  nullish entry || negb (timestamp_ok entry).

(** The first query parameter whose name is not a valid label name. *)
Fixpoint first_invalid_label (entries : list (string * string)) : option string :=
  match entries with
  | [] => None
  | (key, _) :: rest =>
      if validateLabelName key then first_invalid_label rest else Some key
  end.

(** The labels collected from the query parameters, later ones
    overwriting earlier ones of the same name. *)
Definition collect_labels (entries : list (string * string)) (st : gmap string string)
    : gmap string string :=
  foldl (fun m kv => <[fst kv := snd kv]> m) st entries.

(** The label set of the outbound payload. *)
Definition final_stream (request : Request) : gmap string string :=
  <["ip" := clientIP request]>
    (<["proxy" := "miti-loki"]> (collect_labels (searchParams_entries request) ∅)).

(** The second argument of the outbound [fetch]. *)
Definition push_init (request : Request) (env : Env) (vals : list (list jsval))
    : FetchInit number :=
  {| init_method := "POST";
     init_headers := [("Content-Type", "application/json");
                      ("Authorization", "Basic " +:+ auth env)];
     init_body := {| streams := [ {| stream := final_stream request;
                                     values := vals |} ] |} |}.

(** The response of the [catch] block. *)
Definition error_response (error : js_error) : Response :=
  plain_response ("Error forwarding to Loki: " +:+ error_message error) 500.

(** The response to the backend's answer. *)
Definition relay (answer : js_error + LokiResponse) : Response :=
  match answer with
  | inl e => error_response e
  | inr lokiResponse =>
      match lr_text lokiResponse with
      | inl e => error_response e
      | inr responseText =>
          match relayed_response lokiResponse responseText with
          | inl e => error_response e
          | inr response => response
          end
      end
  end.

(** The rest of the [try] block once the values are built. *)
Definition dispatch (w : World number) (request : Request) (env : Env)
    (t : list (event number)) (vals : list (list jsval))
    : list (event number) * (js_error + Response) :=
  match first_invalid_label (searchParams_entries request) with
  | Some key => (t, inr (plain_response (msg_label key) 400))
  | None =>
      (t ++ [E_fetch (lokiUrl env) (push_init request env vals)],
       inr (relay (backend w (lokiUrl env) (push_init request env vals))))
  end.

(** No call to the backend in a trace. *)
Definition no_fetch (t : list (event number)) : Prop := fetched t = [].

(** The trace [t'] extends [t] by clock readings only. *)
Definition clock_only (t t' : list (event number)) : Prop :=
  exists k : nat, t' = t ++ replicate k E_date_now.

End Notions.

(** The label grammar, in the specification's words: a first character out
    of letters, underscore and colon, then any number of characters out of
    letters, digits, underscore and colon. *)
Definition first_alphabet : string :=
  "abcdefghijklmnopqrstuvwxyzABCDEFGHIJKLMNOPQRSTUVWXYZ_:".

Definition rest_alphabet : string := first_alphabet +:+ "0123456789".

Definition in_alphabet (alphabet : string) (c : ascii) : Prop :=
  In c (list_ascii_of_string alphabet).

Definition label_grammar (name : string) : Prop :=
  exists (c : ascii) (rest : string),
    name = String c rest /\ in_alphabet first_alphabet c /\
    Forall (in_alphabet rest_alphabet) (list_ascii_of_string rest).

(** The name both starts and ends with an underscore. *)
Definition underscore_wrapped (name : string) : Prop :=
  Str.first_char name = Some "_"%char /\ Str.last_char name = Some "_"%char.

(** The client address in the specification's words: the first header
    that is present decides. *)
Definition first_present_ip (request : Request) : string :=
  match headers_get request "CF-Connecting-IP" with
  | Some ip => ip
  | None =>
      match headers_get request "X-Forwarded-For" with
      | Some ip => ip
      | None => "unknown"
      end
  end.

(** ** The rest of the module: the legacy listener, and the two earlier
    versions of the handler that the source file carries *)

(** The event of the legacy [addEventListener('fetch', ...)] registration:
    the request, and [event.env] ([None] for [undefined]). *)
Record FetchEvent : Type := {
  event_request : Request;
  event_env : option Env
}.

(** The object [{}] in the place of the environment. *)
Definition empty_env : Env :=
  {| LOKI_HOST := None; LOKI_USERNAME := None; LOKI_PASSWORD := None;
     LOKI_PORT := None |}.

(** The request with its query string replaced. *)
Definition with_query (request : Request) (query : list (string * string)) : Request :=
  {| method := method request;
     searchParams_entries := query;
     headers_get := headers_get request |}.

(** The value of the last query parameter named [key]. *)
Fixpoint last_value (key : string) (entries : list (string * string)) : option string :=
  match entries with
  | [] => None
  | (k, v) :: rest =>
      match last_value key rest with
      | Some later => Some later
      | None => if String.eqb k key then Some v else None
      end
  end.

(** The response carries the header [name: value]. *)
Definition has_header (name value : string) (r : Response) : Prop :=
  In (name, value) (headers r).

Section Module_.
Context {number : Type} `{!Runtime number}.

Local Abbreviation jsval := (jsval number).
Local Abbreviation program := (@prog number).

(** What the promise of an [async] function body settles to in a world,
    with the trace of the run. *)
Definition settle (w : World number) (m : program Empty_set)
    : list (event number) * (js_error + Response) :=
  match run w [] m with
  | (t, Returned r) => (t, inr r)
  | (t, Thrown e) => (t, inl e)
  | (t, Normal a) => match a with end
  end.

(** The handler passed to [addEventListener('fetch', ...)]; the result is
    the argument of [event.respondWith]. *)
Definition listener (event : FetchEvent) : program Empty_set :=
  let request := event_request event in
  if String.eqb (method request) "OPTIONS"
  then Return (handleOptions request)
  else handleRequest request
         (match event_env event with Some env => env | None => empty_env end).

(** The number of times the request body is read in a trace. *)
Definition body_reads (t : list (event number)) : nat :=
  length (List.filter is_request_text t).

(** The number of entries for which the clock is read. *)
Definition defaulted (logs : list jsval) : nat :=
  length (List.filter (fun entry => negb (Js.truthy (field entry "timestamp"))) logs).

(** The tuples of a list of entries when the clock has been read [n]
    times before. *)
Fixpoint values_from (clk : nat -> number) (n : nat) (logs : list jsval)
    : list (list jsval) :=
  match logs with
  | [] => []
  | entry :: rest =>
      tuple_of (clk n) entry
      :: values_from clk (if Js.truthy (field entry "timestamp") then n else S n) rest
  end.

End Module_.

(** *** The first version: JSON entries, no labels from the query *)

Module Version1.
Section Worker.
Context {number : Type} `{!Runtime number}.

Local Abbreviation program := (@prog number).

(** The body of the [try] block. The loop over the entries has the same
    text as in the current version. *)
Definition forward (request : Request) (env : Env) : program Empty_set :=
  body ← request_text;
  if negb (Str.truthy body)
  then Return (plain_response "Request body is required" 400)
  else
    data ← match JSON_parse body with
           | inl parseError =>
               Return (plain_response ("Invalid JSON: " +:+ error_message parseError) 400)
           | inr data => Ret data
           end;
    let logs := logs_of data in
    vals ← build_values logs [];
    let clientIP := clientIP request in
    let lokiPayload :=
      {| streams := [ {| stream := <["ip" := clientIP]>
                                     (<["proxy" := "miti-loki"]> (∅ : gmap string string));
                         values := vals |} ] |} in
    lokiResponse ← fetch (lokiUrl env)
      {| init_method := "POST";
         init_headers := [("Content-Type", "application/json");
                          ("Authorization", "Basic " +:+ auth env)];
         init_body := lokiPayload |};
    responseText ← lift (lr_text lokiResponse);
    response ← lift (relayed_response lokiResponse responseText);
    Return response.

Definition handleRequest (request : Request) (env : Env) : program Empty_set :=
  if String.eqb (method request) "GET"
  then Return (Response_redirect "https://github.com/tiennm99/miti-loki" 302)
  else if negb (String.eqb (method request) "POST")
  then Return (plain_response "Method not allowed. Please use POST." 405)
  else if negb (opt_truthy (LOKI_HOST env)) || negb (opt_truthy (LOKI_USERNAME env))
          || negb (opt_truthy (LOKI_PASSWORD env))
  then Return (plain_response "Server configuration error: Missing Loki credentials" 500)
  else
    try_catch (forward request env)
      (fun error =>
         Return (plain_response ("Error forwarding to Loki: " +:+ error_message error) 500)).

End Worker.
End Version1.

(** *** The second version: the body is one log line of plain text *)

Module Version2.
Section Worker.
Context {number : Type} `{!Runtime number}.

Local Abbreviation program := (@prog number).

(** The body of the [try] block. *)
Definition forward (request : Request) (env : Env) : program Empty_set :=
  message ← request_text;
  if negb (Str.truthy message)
  then Return (plain_response "Request body is required" 400)
  else
    now ← Date_now;
    let lokiPayload : LokiPayload number :=
      {| streams := [ {| stream := ({["source" := "miti-loki"]} : gmap string string);
                         values := [[JStr (num_toString (num_mul now num_1000000));
                                     JStr message]] |} ] |} in
    lokiResponse ← fetch (lokiUrl env)
      {| init_method := "POST";
         init_headers := [("Content-Type", "application/json");
                          ("Authorization", "Basic " +:+ auth env)];
         init_body := lokiPayload |};
    responseText ← lift (lr_text lokiResponse);
    response ← lift (relayed_response lokiResponse responseText);
    Return response.

Definition handleRequest (request : Request) (env : Env) : program Empty_set :=
  if String.eqb (method request) "GET"
  then Return (Response_redirect "https://github.com/tiennnm99/miti-loki" 302)
  else if negb (String.eqb (method request) "POST")
  then Return (plain_response "Method not allowed. Please use POST." 405)
  else if negb (opt_truthy (LOKI_HOST env)) || negb (opt_truthy (LOKI_USERNAME env))
          || negb (opt_truthy (LOKI_PASSWORD env))
  then Return (plain_response "Server configuration error: Missing Loki credentials" 500)
  else
    try_catch (forward request env)
      (fun error =>
         Return (plain_response ("Error forwarding to Loki: " +:+ error_message error) 500)).

(** The payload of the one push of this version. *)
Definition push_init (env : Env) (now : number) (message : string) : FetchInit number :=
  {| init_method := "POST";
     init_headers := [("Content-Type", "application/json");
                      ("Authorization", "Basic " +:+ auth env)];
     init_body :=
       {| streams := [ {| stream := ({["source" := "miti-loki"]} : gmap string string);
                          values := [[JStr (default_timestamp now); JStr message]] |} ] |} |}.

End Worker.
End Version2.

(** ** A concrete runtime, to run the worker on examples *)

Module Demo.

(** Numbers are integers here; [JSON.parse] knows the texts of a table. *)
Definition parse (table : list (string * jsval Z)) (text : string)
    : js_error + jsval Z :=
  match find (fun row => String.eqb (fst row) text) table with
  | Some row => inr (snd row)
  | None => inl (HostError "Unexpected token")
  end.

(** The texts of V8. *)
Definition v8_text (t : type_error) : string :=
  match t with
  | Property_of_null prop =>
      "Cannot read properties of null (reading '" +:+ prop +:+ "')"
  | Property_of_undefined prop =>
      "Cannot read properties of undefined (reading '" +:+ prop +:+ "')"
  | Not_a_function callee => callee +:+ " is not a function"
  | No_primitive_value => "Cannot convert object to primitive value"
  | Status_out_of_range _ =>
      "Responses may only be constructed with status codes in the range 200 to 599, inclusive."
  | Invalid_status_text => "Invalid statusText"
  | Null_body_status _ =>
      "Response with null body status (101, 204, 205, or 304) cannot have a body."
  end.

Definition runtime (table : list (string * jsval Z)) : Runtime Z :=
  {| num_truthy := fun n => negb (Z.eqb n 0);
     num_toString := fun n => pretty n;
     num_mul := Z.mul;
     num_1000000 := 1000000%Z;
     JSON_parse := parse table;
     btoa := fun text => text;
     type_error_text := v8_text |}.

Definition env : Env :=
  {| LOKI_HOST := Some "logs.example.net";
     LOKI_USERNAME := Some "user";
     LOKI_PASSWORD := Some "secret";
     LOKI_PORT := None |}.

Definition no_headers (name : string) : option string := None.

Definition post (query : list (string * string)) (hs : string -> option string)
    : Request :=
  {| method := "POST"; searchParams_entries := query; headers_get := hs |}.

Definition ok_response : LokiResponse :=
  {| lr_status := 204; lr_statusText := "No Content";
     lr_content_type := None; lr_text := inr EmptyString |}.

(** A world whose request body is [text], whose clock stands at
    [1700000000000] ms and whose backend accepts every push. *)
Definition world (text : string) : World Z :=
  {| request_body := inr text;
     clock := fun _ => 1700000000000%Z;
     backend := fun _ _ => inr ok_response |}.

(** [s] between double quotes. *)
Definition q (s : string) : string := dq +:+ s +:+ dq.

(** The bodies of the examples and what [JSON.parse] makes of them. *)

(** [[{"message":"a","metadata":{"level":"info"}},{"message":"b"}]] *)
Definition text_two : string :=
  "[{" +:+ q "message" +:+ ":" +:+ q "a" +:+ "," +:+ q "metadata" +:+ ":{"
  +:+ q "level" +:+ ":" +:+ q "info" +:+ "}},{" +:+ q "message" +:+ ":"
  +:+ q "b" +:+ "}]".
Definition data_two : jsval Z :=
  JArr [JObj [("message", JStr "a"); ("metadata", JObj [("level", JStr "info")])];
        JObj [("message", JStr "b")]].

(** [[{"message":"a","metadata":"x"}]] *)
Definition text_text_metadata : string :=
  "[{" +:+ q "message" +:+ ":" +:+ q "a" +:+ "," +:+ q "metadata" +:+ ":"
  +:+ q "x" +:+ "}]".
Definition data_text_metadata : jsval Z :=
  JArr [JObj [("message", JStr "a"); ("metadata", JStr "x")]].

(** [{"message":"a","metadata":false}] *)
Definition text_false_metadata : string :=
  "{" +:+ q "message" +:+ ":" +:+ q "a" +:+ "," +:+ q "metadata" +:+ ":false}".
Definition data_false_metadata : jsval Z :=
  JObj [("message", JStr "a"); ("metadata", JBool false)].

(** [{"message":"a","metadata":{"ok":1,"deep":{},"more":[]}}] *)
Definition text_nested_metadata : string :=
  "{" +:+ q "message" +:+ ":" +:+ q "a" +:+ "," +:+ q "metadata" +:+ ":{"
  +:+ q "ok" +:+ ":1," +:+ q "deep" +:+ ":{}," +:+ q "more" +:+ ":[]}}".
Definition data_nested_metadata : jsval Z :=
  JObj [("message", JStr "a");
        ("metadata", JObj [("ok", JNum 1%Z); ("deep", JObj []); ("more", JArr [])])].

(** [{"message":"a","timestamp":0}] *)
Definition text_zero_timestamp : string :=
  "{" +:+ q "message" +:+ ":" +:+ q "a" +:+ "," +:+ q "timestamp" +:+ ":0}".
Definition data_zero_timestamp : jsval Z :=
  JObj [("message", JStr "a"); ("timestamp", JNum 0%Z)].

(** [[null]] *)
Definition text_null : string := "[null]".
Definition data_null : jsval Z := JArr [JNull].

(** [[{}, null]] *)
Definition text_empty_then_null : string := "[{}, null]".
Definition data_empty_then_null : jsval Z := JArr [JObj []; JNull].

(** [[{"message":"a"}, null]] *)
Definition text_entry_then_null : string :=
  "[{" +:+ q "message" +:+ ":" +:+ q "a" +:+ "}, null]".
Definition data_entry_then_null : jsval Z :=
  JArr [JObj [("message", JStr "a")]; JNull].

(** [[{"message":"a"}, {"msg":"b"}]] *)
Definition text_second_without_message : string :=
  "[{" +:+ q "message" +:+ ":" +:+ q "a" +:+ "}, {" +:+ q "msg" +:+ ":"
  +:+ q "b" +:+ "}]".
Definition data_second_without_message : jsval Z :=
  JArr [JObj [("message", JStr "a")]; JObj [("msg", JStr "b")]].

Definition table : list (string * jsval Z) :=
  [(text_two, data_two);
   (text_text_metadata, data_text_metadata);
   (text_false_metadata, data_false_metadata);
   (text_nested_metadata, data_nested_metadata);
   (text_zero_timestamp, data_zero_timestamp);
   (text_null, data_null);
   (text_empty_then_null, data_empty_then_null);
   (text_entry_then_null, data_entry_then_null);
   (text_second_without_message, data_second_without_message)].

#[global] Instance rt : Runtime Z := runtime table.

(** Headers of a request that went through a proxy which left the
    Cloudflare header empty. *)
Definition empty_cf_headers (name : string) : option string :=
  if String.eqb name "CF-Connecting-IP" then Some EmptyString
  else if String.eqb name "X-Forwarded-For" then Some "203.0.113.7"
  else None.

Definition cf_headers (name : string) : option string :=
  if String.eqb name "CF-Connecting-IP" then Some "198.51.100.4" else None.

(** The environment with the port binding set to the empty string. *)
Definition env_empty_port : Env :=
  {| LOKI_HOST := Some "logs.example.net";
     LOKI_USERNAME := Some "user";
     LOKI_PASSWORD := Some "secret";
     LOKI_PORT := Some EmptyString |}.

(** The environment without a password. *)
Definition env_no_password : Env :=
  {| LOKI_HOST := Some "logs.example.net";
     LOKI_USERNAME := Some "user";
     LOKI_PASSWORD := None;
     LOKI_PORT := Some "3100" |}.

(** The two-entry example of the specification, with caller labels that
    try to set [proxy] and [ip]. *)
Definition two_request : Request :=
  post [("proxy", "other"); ("ip", "10.0.0.1"); ("app", "web")] cf_headers.

Definition two_values : list (list (jsval Z)) :=
  [[JStr "1700000000000000000"; JStr "a"; JObj [("level", JStr "info")]];
   [JStr "1700000000000000000"; JStr "b"]].

End Demo.

(** More requests and worlds for the examples. *)
Module Demo2.

Definition with_method (m : string) : Request :=
  {| method := m; searchParams_entries := [("app", "web")];
     headers_get := Demo.no_headers |}.

(** A backend that is down. *)
Definition world_down (text : string) : World Z :=
  {| request_body := inr text;
     clock := fun _ => 1700000000000%Z;
     backend := fun _ _ => inl (HostError "connection refused") |}.



(** A world whose clock advances by one millisecond at each reading. *)
Definition world_ticking (text : string) : World Z :=
  {| request_body := inr text;
     clock := fun n => (1700000000000 + Z.of_nat n)%Z;
     backend := fun _ _ => inr Demo.ok_response |}.

(** A request whose body cannot be read. *)
Definition world_unreadable : World Z :=
  {| request_body := inl (HostError "Body has already been used");
     clock := fun _ => 1700000000000%Z;
     backend := fun _ _ => inr Demo.ok_response |}.

Definition repeated_query : Request :=
  Demo.post [("app", "web"); ("env", "prod"); ("app", "api")] Demo.no_headers.

(** [{"message":"a","timestamp":"1700000000000000001"}] *)
Definition stamped_entry : jsval Z :=
  JObj [("message", JStr "a"); ("timestamp", JStr "1700000000000000001")].

(** Three entries, the second with its own timestamp. *)
Definition three_entries : list (jsval Z) :=
  [JObj [("message", JStr "a")]; stamped_entry; JObj [("message", JStr "c")]].

(** A backend that accepts the push with a 200. *)
Definition accepted_response : LokiResponse :=
  {| lr_status := 200; lr_statusText := "OK";
     lr_content_type := Some "application/json";
     lr_text := inr "{}" |}.

Definition world_accepting (text : string) : World Z :=
  {| request_body := inr text;
     clock := fun _ => 1700000000000%Z;
     backend := fun _ _ => inr accepted_response |}.

End Demo2.

(** ** Facts about strings and regular expressions *)

Module StrFacts.
Import Str.

Lemma startsWith_char c s :
  startsWith (String c EmptyString) s = true <-> first_char s = Some c.
Proof.
  destruct s as [|b s]; simpl; [split; discriminate|].
  destruct (Ascii.eqb c b) eqn:E.
  - apply Ascii.eqb_eq in E; subst; tauto.
  - apply Ascii.eqb_neq in E. split; [discriminate|]. intros [=]; congruence.
Qed.

Lemma endsWith_char c s :
  endsWith (String c EmptyString) s = true <-> last_char s = Some c.
Proof.
  induction s as [|b s IH].
  - simpl. split; discriminate.
  - cbn [endsWith last_char]. rewrite orb_true_iff, IH. clear IH.
    destruct s as [|b' s']; cbn.
    + destruct (Ascii.eqb c b) eqn:E.
      * apply Ascii.eqb_eq in E; subst. tauto.
      * apply Ascii.eqb_neq in E. split; [intros [?|?]; discriminate|].
        intros [=]; congruence.
    + destruct (Ascii.eqb c b); intuition discriminate.
Qed.

End StrFacts.

Module RegexFacts.
Import Regex.

Local Ltac unfold_append E :=
  cbv [String.append] in E; fold String.append in E.

Lemma nullable_matches r : nullable r = true <-> matches r EmptyString.
Proof.
  split.
  - induction r; simpl; intros H; try discriminate.
    + constructor.
    + apply andb_true_iff in H as [H1 H2].
      change EmptyString with (EmptyString ++ EmptyString)%string. constructor; auto.
    + apply orb_true_iff in H as [H|H]; [apply m_alt_l | apply m_alt_r]; auto.
    + constructor.
  - intros H. remember EmptyString as s eqn:Es.
    induction H; simpl; try discriminate; try reflexivity.
    + destruct s1; [|discriminate].
      rewrite IHmatches1, IHmatches2; [reflexivity | exact Es | reflexivity].
    + rewrite IHmatches; [reflexivity | assumption].
    + rewrite IHmatches; [apply orb_true_r | assumption].
Qed.

Lemma deriv_sound c r : forall s, matches (deriv c r) s -> matches r (String c s).
Proof.
  induction r; simpl; intros s H.
  - inversion H.
  - inversion H.
  - destruct (p c) eqn:Hp; inversion H; subst. constructor; assumption.
  - destruct (nullable r1) eqn:Hn.
    + inversion H as [| | | ? ? ? Hl | ? ? ? Hr | |]; subst.
      * inversion Hl; subst.
        change (String c (s1 ++ s2)) with (String c s1 ++ s2)%string. constructor; auto.
      * change (String c s) with (EmptyString ++ String c s)%string.
        constructor; [apply nullable_matches; assumption | auto].
    + inversion H; subst.
      change (String c (s1 ++ s2)) with (String c s1 ++ s2)%string. constructor; auto.
  - inversion H; subst; [apply m_alt_l | apply m_alt_r]; auto.
  - inversion H; subst.
    change (String c (s1 ++ s2)) with (String c s1 ++ s2)%string. constructor; auto.
Qed.

Lemma deriv_complete c r s0 :
  matches r s0 -> forall s, s0 = String c s -> matches (deriv c r) s.
Proof.
  induction 1 as [| p a Hp | r1 r2 s1 s2 H1 IH1 H2 IH2 | r1 r2 s1 H1 IH1
                 | r1 r2 s1 H1 IH1 | r1 | r1 s1 s2 H1 IH1 H2 IH2];
    intros s E; simpl.
  - discriminate.
  - injection E as -> <-. rewrite Hp. constructor.
  - destruct s1 as [|a s1]; unfold_append E.
    + apply nullable_matches in H1. rewrite H1. apply m_alt_r; auto.
    + injection E as -> <-.
      destruct (nullable r1); [apply m_alt_l|]; constructor; auto.
  - apply m_alt_l; auto.
  - apply m_alt_r; auto.
  - discriminate.
  - destruct s1 as [|a s1]; unfold_append E.
    + apply (IH2 _ E).
    + injection E as -> <-. constructor; auto.
Qed.

(** The derivative matcher decides the language. *)
Lemma test_matches s : forall r, test r s = true <-> matches r s.
Proof.
  induction s as [|c s IH]; intros r; simpl.
  - apply nullable_matches.
  - rewrite IH. split; [apply deriv_sound|].
    intros H; apply (deriv_complete _ _ _ H); reflexivity.
Qed.

Lemma star_class_matches p s :
  matches (Star (Class p)) s <-> all_chars p s = true.
Proof.
  split.
  - intros H. remember (Star (Class p)) as r eqn:Er.
    induction H; try discriminate; [reflexivity|].
    injection Er as ->. inversion H as [| ? c Hc | | | | |]; subst.
    change (all_chars p (String c s2) = true). simpl.
    rewrite IHmatches2 by reflexivity. rewrite Hc. reflexivity.
  - induction s as [|c s IH]; simpl; intros H; [constructor|].
    apply andb_true_iff in H as [Hc Hs].
    change (String c s) with (String c EmptyString ++ s)%string.
    constructor; [constructor; assumption | auto].
Qed.

Lemma class_star_class_matches p q s :
  matches (Cat (Class p) (Star (Class q))) s <->
  exists c rest, s = String c rest /\ p c = true /\ all_chars q rest = true.
Proof.
  split.
  - intros H. inversion H as [| | ? ? ? ? H1 H2 | | | |]; subst.
    inversion H1; subst. apply star_class_matches in H2.
    exists c, s2. auto.
  - intros (c & rest & -> & Hc & Hr).
    change (String c rest) with (String c EmptyString ++ rest)%string.
    constructor; [constructor; assumption | apply star_class_matches; assumption].
Qed.

End RegexFacts.

(** ** The label grammar *)

Lemma in_alphabet_existsb alphabet c :
  in_alphabet alphabet c <-> existsb (Ascii.eqb c) (list_ascii_of_string alphabet) = true.
Proof.
  unfold in_alphabet. rewrite existsb_exists. split.
  - intros Hin. exists c. split; [assumption | apply Ascii.eqb_refl].
  - intros (x & Hin & Heq). apply Ascii.eqb_eq in Heq. subst. assumption.
Qed.

Lemma label_first_existsb c :
  label_first c = existsb (Ascii.eqb c) (list_ascii_of_string first_alphabet).
Proof. destruct c as [[] [] [] [] [] [] [] []]; vm_compute; reflexivity. Qed.

Lemma label_rest_existsb c :
  label_rest c = existsb (Ascii.eqb c) (list_ascii_of_string rest_alphabet).
Proof. destruct c as [[] [] [] [] [] [] [] []]; vm_compute; reflexivity. Qed.

Lemma all_chars_Forall (p : ascii -> bool) (s : string) :
  Regex.all_chars p s = true <-> Forall (fun c => p c = true) (list_ascii_of_string s).
Proof.
  induction s as [|c s IH]; simpl.
  - split; [constructor | reflexivity].
  - rewrite andb_true_iff, IH. split.
    + intros [Hc Hs]. constructor; assumption.
    + intros Hall. inversion Hall; subst. split; assumption.
Qed.

(** The regular expression of the program accepts the grammar of the
    specification. *)
Lemma label_regex_grammar name :
  Regex.test label_regex name = true <-> label_grammar name.
Proof.
  unfold label_regex, label_grammar.
  rewrite RegexFacts.test_matches, RegexFacts.class_star_class_matches.
  split; intros (c & rest & -> & Hc & Hrest); exists c, rest;
    (split; [reflexivity|]); split.
  - apply in_alphabet_existsb. rewrite <- label_first_existsb. assumption.
  - apply all_chars_Forall in Hrest. eapply Forall_impl; [exact Hrest|].
    intros a Ha. apply in_alphabet_existsb. rewrite <- label_rest_existsb. exact Ha.
  - rewrite label_first_existsb. apply in_alphabet_existsb. assumption.
  - apply all_chars_Forall. eapply Forall_impl; [exact Hrest|].
    intros a Ha. simpl. rewrite label_rest_existsb. apply in_alphabet_existsb. exact Ha.
Qed.

Lemma validateLabelName_iff name :
  validateLabelName name = true <-> label_grammar name /\ ~ underscore_wrapped name.
Proof.
  unfold validateLabelName, underscore_wrapped.
  rewrite <- label_regex_grammar.
  rewrite <- StrFacts.startsWith_char, <- StrFacts.endsWith_char.
  destruct (Regex.test label_regex name), (Str.startsWith "_" name),
    (Str.endsWith "_" name); cbn [negb andb];
    (split;
     [ intros E;
       first [ discriminate E
             | split; [reflexivity | intros [? ?]; congruence] ]
     | intros [E Hn];
       first [ discriminate E | reflexivity
             | exfalso; apply Hn; split; reflexivity ] ]).
Qed.

(** ** Running programs *)

Section RunFacts.
Context {number : Type} `{!Runtime number}.

Local Abbreviation jsval := (jsval number).

Implicit Types (w : World number) (t : list (event number)).

Lemma run_bind {A B : Type} w (m : prog A) (f : A -> prog B) : forall t,
  run w t (m ≫= f) =
  match run w t m with
  | (t', Normal a) => run w t' (f a)
  | (t', Returned r) => (t', Returned r)
  | (t', Thrown e) => (t', Thrown e)
  end.
Proof.
  unfold mbind, prog_bind.
  induction m as [a | r | e | k IH | k IH | url init k IH]; intros t;
    simpl; auto.
Qed.

Lemma run_try_catch {A : Type} w (m : prog A) (h : js_error -> prog A) : forall t,
  run w t (try_catch m h) =
  match run w t m with
  | (t', Thrown e) => run w t' (h e)
  | other => other
  end.
Proof.
  induction m as [a | r | e | k IH | k IH | url init k IH]; intros t;
    simpl; auto.
Qed.

Lemma run_lift {A : Type} w t (r : js_error + A) :
  run w t (lift r) = (t, match r with inl e => Thrown e | inr a => Normal a end).
Proof. destruct r; reflexivity. Qed.

Lemma run_Date_now w t :
  run w t Date_now = (t ++ [E_date_now], Normal (clock w (ticks t))).
Proof. reflexivity. Qed.

Lemma run_request_text w t :
  run w t request_text =
  (t ++ [E_request_text],
   match request_body w with inl e => Thrown e | inr s => Normal s end).
Proof. unfold request_text. simpl. apply run_lift. Qed.

Lemma run_fetch w t url init :
  run w t (fetch url init) =
  (t ++ [E_fetch url init],
   match backend w url init with inl e => Thrown e | inr r => Normal r end).
Proof. unfold fetch. simpl. apply run_lift. Qed.

(** *** Traces *)

Lemma fetched_app t1 t2 : fetched (t1 ++ t2) = fetched t1 ++ fetched t2.
Proof. unfold fetched. apply omap_app. Qed.

Lemma fetched_replicate k : fetched (replicate k (@E_date_now number)) = [].
Proof. induction k; simpl; auto. Qed.

Lemma clock_only_refl t : clock_only t t.
Proof. exists 0. simpl. rewrite app_nil_r. reflexivity. Qed.

Lemma clock_only_step t : clock_only t (t ++ [E_date_now]).
Proof. exists 1. reflexivity. Qed.

Lemma clock_only_trans t1 t2 t3 :
  clock_only t1 t2 -> clock_only t2 t3 -> clock_only t1 t3.
Proof.
  intros [k1 ->] [k2 ->]. exists (k1 + k2).
  rewrite <- app_assoc, replicate_add. reflexivity.
Qed.

Lemma clock_only_fetched t t' : clock_only t t' -> fetched t' = fetched t.
Proof.
  intros [k ->]. rewrite fetched_app, fetched_replicate. apply app_nil_r.
Qed.

(** *** Reading the fields of an entry *)

Lemma get_field (entry : jsval) key :
  nullish entry = false -> Js.get entry key = inr (field entry key).
Proof. destruct entry; simpl; intros E; try discriminate E; reflexivity. Qed.

Lemma get_nullish (entry : jsval) key :
  nullish entry = true -> exists e, Js.get entry key = inl e.
Proof. destruct entry; simpl; intros E; try discriminate E; eauto. Qed.

Lemma has_message_not_nullish (entry : jsval) :
  has_message entry = true -> nullish entry = false.
Proof. destruct entry; simpl; auto. Qed.

(** *** The metadata loop *)

Lemma nested_test (value : jsval) :
  Js.js_type_eqb (Js.typeof value) Js.T_object && negb (Js.is_null value)
  = negb (scalar value).
Proof. destruct value; reflexivity. Qed.

Lemma run_check_flat w t (props : list (string * jsval)) :
  run w t (check_flat props) =
  (t, match first_nested props with
      | Some key => Returned (plain_response (msg_nested key) 400)
      | None => Normal tt
      end).
Proof.
  induction props as [|[key value] rest IH]; simpl; [reflexivity|].
  rewrite nested_test. destruct (scalar value); simpl; [apply IH | reflexivity].
Qed.

Lemma first_nested_flat (props : list (string * jsval)) :
  first_nested props = None <-> forallb (fun kv => scalar (snd kv)) props = true.
Proof.
  induction props as [|[key value] rest IH]; simpl; [tauto|].
  destruct (scalar value); simpl; [exact IH | split; discriminate].
Qed.

Lemma first_nested_split (props : list (string * jsval)) key :
  first_nested props = Some key <->
  exists pre value post,
    props = pre ++ (key, value) :: post /\
    forallb (fun kv => scalar (snd kv)) pre = true /\ scalar value = false.
Proof.
  induction props as [|[k v] rest IH]; simpl.
  - split; [discriminate|]. intros (pre & value & post & E & _).
    destruct pre; discriminate E.
  - destruct (scalar v) eqn:Ev.
    + rewrite IH. split.
      * intros (pre & value & post & -> & Hpre & Hv).
        exists ((k, v) :: pre), value, post. simpl. rewrite Ev. auto.
      * intros (pre & value & post & E & Hpre & Hv).
        destruct pre as [|[k' v'] pre]; simpl in E, Hpre.
        -- injection E as -> -> ->. congruence.
        -- injection E as -> -> ->. apply andb_true_iff in Hpre as [_ Hpre].
           eauto 6.
    + split.
      * intros [= ->]. exists [], v, rest. auto.
      * intros (pre & value & post & E & Hpre & Hv).
        destruct pre as [|[k' v'] pre]; simpl in E, Hpre.
        -- injection E as -> -> ->. reflexivity.
        -- injection E as -> -> ->. rewrite Ev in Hpre. discriminate Hpre.
Qed.

End RunFacts.

(** ** One iteration of the validation loop *)

Section EntryFacts.
Context {number : Type} `{!Runtime number}.

Local Abbreviation jsval := (jsval number).

Implicit Types (w : World number) (t : list (event number)) (entry : jsval).

Lemma run_process_entry w t entry vals :
  run w t (process_entry entry vals) =
  (entry_trace t entry, entry_completion (clock w (ticks t)) entry vals).
Proof.
  unfold entry_trace, entry_completion, process_entry.
  rewrite run_bind, run_lift.
  destruct (nullish entry) eqn:Hnn.
  { destruct (get_nullish entry "message" Hnn) as [e ->]. reflexivity. }
  rewrite !(get_field _ _ Hnn). unfold has_message. cbn [orb].
  destruct (Js.truthy (field entry "message")) eqn:Hmsg; cbn [negb]; [|reflexivity].
  rewrite run_bind, run_lift, run_bind.
  assert (Hstamp :
    run w t (if Js.truthy (field entry "timestamp")
             then Ret (field entry "timestamp")
             else Date_now ≫= λ now : number,
                    Ret (JStr (num_toString (num_mul now num_1000000))))
    = (after_timestamp t entry,
       Normal (timestamp_value (clock w (ticks t)) entry))).
  { unfold after_timestamp, timestamp_value.
    destruct (Js.truthy (field entry "timestamp")); [reflexivity|].
    rewrite run_bind, run_Date_now. reflexivity. }
  rewrite Hstamp. clear Hstamp.
  generalize (timestamp_value (clock w (ticks t)) entry) as timestamp.
  generalize (after_timestamp t entry) as t'. intros t' timestamp.
  rewrite run_bind, run_lift.
  destruct (Js.truthy (field entry "metadata")) eqn:Hmd; cbn [negb].
  - destruct (field entry "metadata") as [| | b | n | s | xs | props] eqn:Emd;
      try reflexivity; try discriminate Hmd.
    cbn [Js.typeof Js.js_type_eqb Js.Array_isArray negb orb Js.Object_entries].
    rewrite run_bind, run_check_flat.
    destruct (first_nested props) eqn:Hnest; [reflexivity|].
    unfold Js.Object_keys. cbn [Js.Object_entries has_keys].
    destruct props as [|kv props]; cbn [map length Nat.ltb Nat.leb];
      rewrite run_bind, run_lift;
      destruct (Js.toString "timestamp.toString" timestamp); reflexivity.
  - rewrite run_bind, run_lift.
    replace (has_keys (field entry "metadata")) with false
      by (destruct (field entry "metadata") as [| | | | | |[|? ?]];
          try reflexivity; discriminate Hmd).
    destruct (Js.toString "timestamp.toString" timestamp); reflexivity.
Qed.

Lemma entry_trace_clock_only t entry : clock_only t (entry_trace t entry).
Proof.
  unfold entry_trace, after_timestamp.
  destruct (nullish entry || negb (has_message entry));
    [apply clock_only_refl|].
  destruct (Js.truthy (field entry "timestamp"));
    [apply clock_only_refl | apply clock_only_step].
Qed.

Lemma toString_timestamp_value now entry :
  timestamp_ok entry = true ->
  Js.toString "timestamp.toString" (timestamp_value now entry)
  = inr (timestamp_text now entry).
Proof.
  unfold timestamp_ok, timestamp_value, timestamp_text.
  destruct (Js.truthy (field entry "timestamp")); cbn [negb orb]; [|reflexivity].
  destruct (Js.toString "timestamp.toString" (field entry "timestamp"));
    [discriminate | reflexivity].
Qed.

Lemma flat_object_first_nested (md : jsval) :
  flat_object md = true ->
  exists props, md = JObj props /\ first_nested props = None.
Proof.
  destruct md as [| | | | | |props]; simpl; try discriminate.
  intros Hflat. exists props. split; [reflexivity|].
  apply first_nested_flat. exact Hflat.
Qed.

(** A valid entry contributes its tuple. *)
Lemma entry_completion_good now entry vals :
  good_entry entry = true ->
  entry_completion now entry vals = Normal (vals ++ [tuple_of now entry]).
Proof.
  unfold good_entry, metadata_ok. intros Hgood.
  apply andb_true_iff in Hgood as [Hgood Hts].
  apply andb_true_iff in Hgood as [Hmsg Hmd].
  pose proof (has_message_not_nullish _ Hmsg) as Hnn.
  unfold entry_completion, tuple_of.
  rewrite (get_field _ _ Hnn), (toString_timestamp_value _ _ Hts).
  unfold has_message in Hmsg. rewrite Hmsg. cbn [negb].
  destruct (Js.truthy (field entry "metadata")); cbn [negb orb] in *;
    [|reflexivity].
  destruct (flat_object_first_nested _ Hmd) as (props & -> & ->). reflexivity.
Qed.

Lemma entry_trace_good t entry :
  good_entry entry = true -> entry_trace t entry = after_timestamp t entry.
Proof.
  unfold good_entry. intros Hgood.
  apply andb_true_iff in Hgood as [Hgood _].
  apply andb_true_iff in Hgood as [Hmsg _].
  unfold entry_trace.
  rewrite (has_message_not_nullish _ Hmsg), Hmsg. reflexivity.
Qed.

(** An entry without a message is refused before anything else is
    looked at; [null] in the place of an entry throws. *)
Lemma entry_completion_no_message now entry vals :
  has_message entry = false ->
  entry_completion now entry vals =
  match Js.get entry "message" with
  | inl e => Thrown e
  | inr _ => Returned (plain_response msg_missing_message 400)
  end.
Proof.
  unfold entry_completion, has_message, field.
  destruct (Js.get entry "message") as [e|message]; [reflexivity|].
  intros ->. reflexivity.
Qed.

Lemma entry_trace_no_message t entry :
  has_message entry = false -> entry_trace t entry = t.
Proof.
  unfold entry_trace. intros ->. rewrite orb_true_r. reflexivity.
Qed.

(** What each way of completing says about the entry. *)
Lemma entry_completion_inv now entry vals :
  match entry_completion now entry vals with
  | Normal vs => good_entry entry = true /\ vs = vals ++ [tuple_of now entry]
  | Returned r => status r = 400 /\ nullish entry = false /\ good_entry entry = false
  | Thrown e => may_throw entry = true
  end.
Proof.
  destruct (nullish entry) eqn:Hnn.
  { unfold entry_completion. destruct (get_nullish entry "message" Hnn) as [e ->].
    unfold may_throw. rewrite Hnn. reflexivity. }
  destruct (has_message entry) eqn:Hmsg.
  2:{ rewrite (entry_completion_no_message _ _ _ Hmsg), (get_field _ _ Hnn).
      unfold good_entry. rewrite Hmsg. auto. }
  destruct (metadata_ok entry) eqn:Hmd.
  - destruct (timestamp_ok entry) eqn:Hts.
    + assert (Hgood : good_entry entry = true)
        by (unfold good_entry; rewrite Hmsg, Hmd, Hts; reflexivity).
      rewrite (entry_completion_good _ _ _ Hgood). auto.
    + assert (Hthrow : may_throw entry = true)
        by (unfold may_throw; rewrite Hts; apply orb_true_r).
      assert (Hbad : exists e,
        Js.toString "timestamp.toString" (timestamp_value now entry) = inl e).
      { unfold timestamp_ok in Hts. unfold timestamp_value.
        destruct (Js.truthy (field entry "timestamp")); [|discriminate Hts].
        cbn [negb orb] in Hts.
        destruct (Js.toString "timestamp.toString" (field entry "timestamp"));
          [eauto | discriminate Hts]. }
      destruct Hbad as [e He].
      unfold entry_completion. rewrite (get_field _ _ Hnn), He.
      unfold has_message in Hmsg. rewrite Hmsg. cbn [negb].
      unfold metadata_ok in Hmd.
      destruct (Js.truthy (field entry "metadata")); cbn [negb orb] in *;
        [|exact Hthrow].
      destruct (flat_object_first_nested _ Hmd) as (props & -> & ->).
      exact Hthrow.
  - assert (Hbad : good_entry entry = false)
      by (unfold good_entry; rewrite Hmsg, Hmd; reflexivity).
    unfold entry_completion. rewrite (get_field _ _ Hnn).
    unfold has_message in Hmsg. rewrite Hmsg. cbn [negb].
    unfold metadata_ok in Hmd.
    destruct (Js.truthy (field entry "metadata")); cbn [negb orb] in *;
      [|discriminate Hmd].
    destruct (field entry "metadata") as [| | | | | |props]; auto.
    destruct (first_nested props) eqn:Hn; [auto|].
    apply first_nested_flat in Hn. simpl in Hmd. congruence.
Qed.

End EntryFacts.

(** ** The validation loop, the label loop and the handler *)

Section HandlerFacts.
Context {number : Type} `{!Runtime number}.

Local Abbreviation jsval := (jsval number).

Implicit Types (w : World number) (t : list (event number)) (entry : jsval).

Lemma run_build_values_cons w t entry rest vals :
  run w t (build_values (entry :: rest) vals) =
  match entry_completion (clock w (ticks t)) entry vals with
  | Normal vs => run w (entry_trace t entry) (build_values rest vs)
  | Returned r => (entry_trace t entry, Returned r)
  | Thrown e => (entry_trace t entry, Thrown e)
  end.
Proof. cbn [build_values]. rewrite run_bind, run_process_entry. reflexivity. Qed.

Lemma run_build_values_app w pre rest : forall t vals,
  run w t (build_values (pre ++ rest) vals) =
  match run w t (build_values pre vals) with
  | (t', Normal vs) => run w t' (build_values rest vs)
  | other => other
  end.
Proof.
  induction pre as [|entry pre IH]; intros t vals; [reflexivity|].
  rewrite <- app_comm_cons, !run_build_values_cons.
  destruct (entry_completion (clock w (ticks t)) entry vals); auto.
Qed.

Lemma tuple_of_tuple_for now entry : tuple_for entry (tuple_of now entry).
Proof. exists (timestamp_text now entry). reflexivity. Qed.

(** Valid entries only: one tuple each, in order. *)
Lemma run_build_values_good w logs : forall t vals,
  forallb good_entry logs = true ->
  exists t' new,
    run w t (build_values logs vals) = (t', Normal (vals ++ new)) /\
    clock_only t t' /\ Forall2 tuple_for logs new.
Proof.
  induction logs as [|entry rest IH]; intros t vals Hall.
  - exists t, []. rewrite app_nil_r.
    split; [reflexivity | split; [apply clock_only_refl | constructor]].
  - cbn [forallb] in Hall. apply andb_true_iff in Hall as [Hgood Hrest].
    rewrite run_build_values_cons, (entry_completion_good _ _ _ Hgood).
    destruct (IH (entry_trace t entry)
                 (vals ++ [tuple_of (clock w (ticks t)) entry]) Hrest)
      as (t' & new & Hrun & Hclock & Hall2).
    exists t', (tuple_of (clock w (ticks t)) entry :: new).
    rewrite Hrun, <- app_assoc. split; [reflexivity|]. split.
    + eapply clock_only_trans; [apply entry_trace_clock_only | exact Hclock].
    + constructor; [apply tuple_of_tuple_for | exact Hall2].
Qed.

(** Every way the loop can end. *)
Lemma run_build_values_inv w logs : forall t vals,
  exists t' c,
    run w t (build_values logs vals) = (t', c) /\ clock_only t t' /\
    match c with
    | Normal vs =>
        forallb good_entry logs = true /\
        exists new, vs = vals ++ new /\ Forall2 tuple_for logs new
    | Returned r => status r = 400 /\ forallb good_entry logs = false
    | Thrown e => existsb may_throw logs = true
    end.
Proof.
  induction logs as [|entry rest IH]; intros t vals.
  - exists t, (Normal vals). split; [reflexivity|].
    split; [apply clock_only_refl|]. split; [reflexivity|].
    exists []. rewrite app_nil_r. split; [reflexivity | constructor].
  - rewrite run_build_values_cons.
    pose proof (entry_completion_inv (clock w (ticks t)) entry vals) as Hinv.
    pose proof (entry_trace_clock_only t entry) as Hstep.
    destruct (entry_completion (clock w (ticks t)) entry vals) as [vs|r|e].
    + destruct Hinv as [Hgood ->].
      destruct (IH (entry_trace t entry)
                   (vals ++ [tuple_of (clock w (ticks t)) entry]))
        as (t' & c & Hrun & Hclock & Hc).
      exists t', c. split; [exact Hrun|].
      split; [eapply clock_only_trans; eassumption|].
      cbn [forallb existsb]. rewrite Hgood. cbn [andb].
      destruct c as [vs|r|e].
      * destruct Hc as (Hall & new & -> & Hall2). split; [exact Hall|].
        exists (tuple_of (clock w (ticks t)) entry :: new).
        rewrite <- app_assoc. split; [reflexivity|].
        constructor; [apply tuple_of_tuple_for | exact Hall2].
      * exact Hc.
      * rewrite Hc. apply orb_true_r.
    + destruct Hinv as (Hst & _ & Hbad).
      exists (entry_trace t entry), (Returned r).
      split; [reflexivity|]. split; [exact Hstep|].
      cbn [forallb]. rewrite Hbad. auto.
    + exists (entry_trace t entry), (Thrown e).
      split; [reflexivity|]. split; [exact Hstep|].
      cbn [existsb]. rewrite Hinv. reflexivity.
Qed.

Lemma good_entry_has_message entry : good_entry entry = true -> has_message entry = true.
Proof.
  unfold good_entry. intros Hgood.
  apply andb_true_iff in Hgood as [Hgood _].
  apply andb_true_iff in Hgood as [Hmsg _]. exact Hmsg.
Qed.

(** *** The label loop *)

Lemma run_build_stream w t entries : forall st,
  run w t (build_stream entries st) =
  (t, match first_invalid_label entries with
      | Some key => Returned (plain_response (msg_label key) 400)
      | None => Normal (collect_labels entries st)
      end).
Proof.
  induction entries as [|[key value] rest IH]; intros st; [reflexivity|].
  cbn [build_stream first_invalid_label].
  destruct (validateLabelName key); cbn [negb]; [|reflexivity].
  rewrite IH. reflexivity.
Qed.

Lemma first_invalid_label_none entries :
  first_invalid_label entries = None <->
  forallb (fun kv => validateLabelName (fst kv)) entries = true.
Proof.
  induction entries as [|[key value] rest IH]; simpl; [tauto|].
  destruct (validateLabelName key); simpl; [exact IH | split; discriminate].
Qed.

Lemma first_invalid_label_split entries key :
  first_invalid_label entries = Some key <->
  exists pre value post,
    entries = pre ++ (key, value) :: post /\
    forallb (fun kv => validateLabelName (fst kv)) pre = true /\
    validateLabelName key = false.
Proof.
  induction entries as [|[k v] rest IH]; simpl.
  - split; [discriminate|]. intros (pre & value & post & E & _).
    destruct pre; discriminate E.
  - destruct (validateLabelName k) eqn:Ek.
    + rewrite IH. split.
      * intros (pre & value & post & -> & Hpre & Hv).
        exists ((k, v) :: pre), value, post. simpl. rewrite Ek. auto.
      * intros (pre & value & post & E & Hpre & Hv).
        destruct pre as [|[k' v'] pre]; simpl in E, Hpre.
        -- injection E as -> -> ->. congruence.
        -- injection E as -> -> ->. apply andb_true_iff in Hpre as [_ Hpre].
           eauto 6.
    + split.
      * intros [= ->]. exists [], v, rest. auto.
      * intros (pre & value & post & E & Hpre & Hv).
        destruct pre as [|[k' v'] pre]; simpl in E, Hpre.
        -- injection E as -> -> ->. reflexivity.
        -- injection E as -> -> ->. rewrite Ek in Hpre. discriminate Hpre.
Qed.

(** *** The handler on a submission *)

Lemma configured_guard env :
  negb (opt_truthy (LOKI_HOST env)) || negb (opt_truthy (LOKI_USERNAME env))
  || negb (opt_truthy (LOKI_PASSWORD env)) = negb (configured env).
Proof.
  unfold configured.
  destruct (opt_truthy (LOKI_HOST env)), (opt_truthy (LOKI_USERNAME env)),
    (opt_truthy (LOKI_PASSWORD env)); reflexivity.
Qed.

Lemma respond_unfold w request env :
  respond w request env =
  if String.eqb (method request) "GET"
  then ([], inr (Response_redirect "https://github.com/tiennm99/miti-loki" 302))
  else if negb (String.eqb (method request) "POST")
  then ([], inr (plain_response "Method not allowed. Please use POST." 405))
  else if negb (configured env)
  then ([], inr (plain_response
                   "Server configuration error: Missing Loki credentials" 500))
  else
    match request_body w with
    | inl e => ([E_request_text], inr (error_response e))
    | inr text =>
        if negb (Str.truthy text)
        then ([E_request_text], inr (plain_response "Request body is required" 400))
        else
          match JSON_parse text with
          | inl parseError =>
              ([E_request_text],
               inr (plain_response ("Invalid JSON: " +:+ error_message parseError) 400))
          | inr data =>
              match run w [E_request_text] (build_values (logs_of data) []) with
              | (t, Normal vals) => dispatch w request env t vals
              | (t, Returned r) => (t, inr r)
              | (t, Thrown e) => (t, inr (error_response e))
              end
          end
    end.
Proof.
  unfold respond, handleRequest.
  destruct (String.eqb (method request) "GET"); [reflexivity|].
  destruct (String.eqb (method request) "POST"); cbn [negb]; [|reflexivity].
  rewrite configured_guard.
  destruct (configured env); cbn [negb]; [|reflexivity].
  rewrite run_try_catch. unfold forward.
  rewrite run_bind, run_request_text. cbn [app].
  destruct (request_body w) as [e|text]; [reflexivity|].
  destruct (Str.truthy text); cbn [negb]; [|reflexivity].
  rewrite run_bind.
  destruct (JSON_parse text) as [parseError|data]; [reflexivity|]. cbn [run].
  rewrite run_bind.
  destruct (run w [E_request_text] (build_values (logs_of data) []))
    as [t [vals|r|e]]; try reflexivity.
  rewrite run_bind, run_build_stream. unfold dispatch.
  destruct (first_invalid_label (searchParams_entries request)) as [key|];
    [reflexivity|].
  rewrite run_bind, run_fetch. unfold relay.
  fold (final_stream request). fold (push_init request env vals).
  destruct (backend w (lokiUrl env) (push_init request env vals)) as [e|lr];
    [reflexivity|].
  rewrite run_bind, run_lift.
  destruct (lr_text lr) as [e|responseText]; [reflexivity|].
  rewrite run_bind, run_lift.
  destruct (relayed_response lr responseText); reflexivity.
Qed.

Lemma respond_submission w request env data :
  submission w request env data ->
  respond w request env =
  match run w [E_request_text] (build_values (logs_of data) []) with
  | (t, Normal vals) => dispatch w request env t vals
  | (t, Returned r) => (t, inr r)
  | (t, Thrown e) => (t, inr (error_response e))
  end.
Proof.
  intros (Hpost & Hconf & text & Hbody & Htext & Hparse).
  rewrite respond_unfold, Hpost, Hconf, Hbody, Htext, Hparse. reflexivity.
Qed.

Lemma fetched_request_text : fetched [@E_request_text number] = [].
Proof. reflexivity. Qed.

(** Every call to the backend is the one push of a submission that
    passed both loops. *)
Lemma respond_fetched w request env url init :
  In (url, init) (fetched (fst (respond w request env))) ->
  exists data t vals,
    submission w request env data /\
    run w [E_request_text] (build_values (logs_of data) []) = (t, Normal vals) /\
    first_invalid_label (searchParams_entries request) = None /\
    url = lokiUrl env /\ init = push_init request env vals /\
    fetched (fst (respond w request env)) = [(url, init)].
Proof.
  rewrite respond_unfold.
  destruct (String.eqb (method request) "GET") eqn:Hget; [intros []|].
  destruct (String.eqb (method request) "POST") eqn:Hpost; cbn [negb]; [|intros []].
  destruct (configured env) eqn:Hconf; cbn [negb]; [|intros []].
  destruct (request_body w) as [e|text] eqn:Hbody; [intros []|].
  destruct (Str.truthy text) eqn:Htext; cbn [negb]; [|intros []].
  destruct (JSON_parse text) as [parseError|data] eqn:Hparse; [intros []|].
  assert (Hsub : submission w request env data).
  { split; [apply String.eqb_eq; exact Hpost|]. split; [exact Hconf|].
    exists text. auto. }
  destruct (run_build_values_inv w (logs_of data) [E_request_text] [])
    as (t & c & Hrun & Hclock & Hc).
  rewrite Hrun. apply clock_only_fetched in Hclock.
  rewrite fetched_request_text in Hclock.
  destruct c as [vals|r|e]; cbn [fst]; try (rewrite Hclock; intros []).
  unfold dispatch.
  destruct (first_invalid_label (searchParams_entries request)) eqn:Hlab;
    cbn [fst]; [rewrite Hclock; intros []|].
  rewrite fetched_app, Hclock. cbn. intros [[= <- <-]|[]].
  exists data, t, vals. auto 10.
Qed.

End HandlerFacts.

(** ** The properties of the specification *)

Section Properties.
Context {number : Type} `{!Runtime number}.

Local Abbreviation jsval := (jsval number).

Implicit Types (w : World number) (t : list (event number)) (entry : jsval).

Lemma own_property_filter (props : list (string * jsval)) (dropped key : string) :
  Js.own_property
    (List.filter (fun kv => negb (String.eqb (fst kv) dropped)) props) key
  = if String.eqb dropped key then JUndefined else Js.own_property props key.
Proof.
  induction props as [|[k v] rest IH]; simpl.
  - destruct (String.eqb dropped key); reflexivity.
  - destruct (String.eqb k dropped) eqn:Ek; simpl.
    + apply String.eqb_eq in Ek. subst k. rewrite IH.
      destruct (String.eqb dropped key); reflexivity.
    + rewrite IH. destruct (String.eqb k key) eqn:Ekey; [|reflexivity].
      apply String.eqb_eq in Ekey. subst k.
      rewrite String.eqb_sym, Ek. reflexivity.
Qed.

Lemma get_without_metadata entry key :
  Js.get (without_metadata entry) key
  = if String.eqb "metadata" key
    then match Js.get entry key with inl e => inl e | inr _ => inr JUndefined end
    else Js.get entry key.
Proof.
  destruct entry as [| | | | | |props]; cbn [without_metadata Js.get];
    try (destruct (String.eqb "metadata" key); reflexivity).
  rewrite own_property_filter.
  destruct (String.eqb "metadata" key); reflexivity.
Qed.

Lemma falsy_has_no_keys (v : jsval) : Js.truthy v = false -> has_keys v = false.
Proof. destruct v as [| | | | | |[|kv props]]; simpl; intros E; congruence. Qed.

(** An entry that is not valid ends the loop: with a 400 when it is
    refused, by an exception when it is [null] or when its message and
    metadata pass and its timestamp has no text form. *)
Lemma entry_completion_bad now entry vals :
  good_entry entry = false ->
  match entry_completion now entry vals with
  | Normal _ => False
  | Returned r =>
      status r = 400 /\ nullish entry || (has_message entry && metadata_ok entry) = false
  | Thrown e => nullish entry || (has_message entry && metadata_ok entry) = true
  end.
Proof.
  intros Hbad.
  destruct (nullish entry) eqn:Hnn.
  { unfold entry_completion. destruct (get_nullish entry "message" Hnn) as [e ->].
    reflexivity. }
  cbn [orb].
  destruct (has_message entry) eqn:Hmsg; cbn [andb].
  2:{ rewrite (entry_completion_no_message _ _ _ Hmsg), (get_field _ _ Hnn). auto. }
  destruct (metadata_ok entry) eqn:Hmd.
  - assert (Hts : timestamp_ok entry = false).
    { unfold good_entry in Hbad. rewrite Hmsg, Hmd in Hbad. exact Hbad. }
    assert (Hthrow : exists e,
      Js.toString "timestamp.toString" (timestamp_value now entry) = inl e).
    { unfold timestamp_ok in Hts. unfold timestamp_value.
      destruct (Js.truthy (field entry "timestamp")); [|discriminate Hts].
      cbn [negb orb] in Hts.
      destruct (Js.toString "timestamp.toString" (field entry "timestamp"));
        [eauto | discriminate Hts]. }
    destruct Hthrow as [e He].
    unfold entry_completion. rewrite (get_field _ _ Hnn), He.
    unfold has_message in Hmsg. rewrite Hmsg. cbn [negb].
    unfold metadata_ok in Hmd.
    destruct (Js.truthy (field entry "metadata")); cbn [negb orb] in *;
      [|reflexivity].
    destruct (flat_object_first_nested _ Hmd) as (props & -> & ->). reflexivity.
  - unfold entry_completion. rewrite (get_field _ _ Hnn).
    unfold has_message in Hmsg. rewrite Hmsg. cbn [negb].
    unfold metadata_ok in Hmd.
    destruct (Js.truthy (field entry "metadata")); cbn [negb orb] in *;
      [|discriminate Hmd].
    destruct (field entry "metadata") as [| | | | | |props];
      try (split; reflexivity).
    destruct (first_nested props) eqn:Hn; [split; reflexivity|].
    apply first_nested_flat in Hn. simpl in Hmd. congruence.
Qed.

Lemma good_entries_have_message (logs : list jsval) :
  forallb good_entry logs = true ->
  existsb (fun entry => negb (has_message entry)) logs = false.
Proof.
  induction logs as [|entry rest IH]; [reflexivity|].
  cbn [forallb existsb]. intros Hall.
  apply andb_true_iff in Hall as [Hgood Hrest].
  rewrite (good_entry_has_message _ Hgood), (IH Hrest). reflexivity.
Qed.

(** C1 (as amended). For every POST to a configured worker whose body is
    non-empty JSON parsing to an array (or to a single value, treated as
    a one-element array) in which every entry is valid -- it has a
    non-empty message, its metadata is absent or a flat object, and its
    timestamp is absent or has a text form -- the loop produces a values
    array with exactly one value-tuple per input entry, in the order of
    the entries; when all label names are valid too, this array is what
    the one call to the backend carries. *)
Theorem C1_one_tuple_per_entry w request env data :
  submission w request env data ->
  forallb good_entry (logs_of data) = true ->
  exists t vals,
    run w [E_request_text] (build_values (logs_of data) []) = (t, Normal vals) /\
    Forall2 tuple_for (logs_of data) vals /\
    length vals = length (logs_of data) /\
    (first_invalid_label (searchParams_entries request) = None ->
     fetched (fst (respond w request env))
     = [(lokiUrl env, push_init request env vals)]).
Proof.
  intros Hsub Hall.
  destruct (run_build_values_good w (logs_of data) [E_request_text] [] Hall)
    as (t & vals & Hrun & Hclock & Hall2).
  cbn [app] in Hrun. exists t, vals.
  split; [exact Hrun|]. split; [exact Hall2|].
  split; [symmetry; eapply Forall2_length; exact Hall2|].
  intros Hlabels. rewrite (respond_submission _ _ _ _ Hsub), Hrun.
  unfold dispatch. rewrite Hlabels. cbn [fst].
  rewrite fetched_app, (clock_only_fetched _ _ Hclock). reflexivity.
Qed.

(** C2. For every valid log entry the iteration produces one value-tuple;
    it has 3 elements (timestamp, message, metadata) exactly when the
    metadata of the entry is an object with at least one key, and 2
    elements (timestamp, message) otherwise, in particular when the
    metadata is absent or the empty object. *)
Theorem C2_tuple_arity w t entry vals :
  good_entry entry = true ->
  exists (ts : string) (tuple : list jsval),
    run w t (process_entry entry vals)
    = (after_timestamp t entry, Normal (vals ++ [tuple])) /\
    (length tuple = 3 <-> has_keys (field entry "metadata") = true) /\
    (length tuple = 2 <-> has_keys (field entry "metadata") = false) /\
    (has_keys (field entry "metadata") = true ->
     tuple = [JStr ts; field entry "message"; field entry "metadata"]) /\
    (has_keys (field entry "metadata") = false ->
     tuple = [JStr ts; field entry "message"]) /\
    (field entry "metadata" = JUndefined \/ field entry "metadata" = JObj [] ->
     length tuple = 2).
Proof.
  intros Hgood.
  exists (timestamp_text (clock w (ticks t)) entry),
         (tuple_of (clock w (ticks t)) entry).
  rewrite run_process_entry, (entry_completion_good _ _ _ Hgood),
    (entry_trace_good _ _ Hgood).
  split; [reflexivity|]. unfold tuple_of.
  destruct (has_keys (field entry "metadata")) eqn:Hkeys; cbn [length].
  - repeat split; try reflexivity; try discriminate.
    intros [E|E]; rewrite E in Hkeys; discriminate Hkeys.
  - repeat split; try reflexivity; discriminate.
Qed.

Lemma first_invalid_entry (logs : list jsval) :
  forallb good_entry logs = false ->
  exists pre entry post,
    logs = pre ++ entry :: post /\
    forallb good_entry pre = true /\ good_entry entry = false.
Proof.
  induction logs as [|entry rest IH]; [discriminate|].
  cbn [forallb]. destruct (good_entry entry) eqn:Hgood; cbn [andb].
  - intros Hrest. destruct (IH Hrest) as (pre & bad & post & -> & Hpre & Hbad).
    exists (entry :: pre), bad, post. cbn [forallb]. rewrite Hgood. auto.
  - intros _. exists [], entry, rest. auto.
Qed.

(** What the worker answers to a submission in which some entry lacks a
    non-empty message: the first entry that is not valid decides. Nothing
    is pushed; the response is the 400 of a validation error, except that
    it is the 500 of the [catch] block when that first entry is [null] or
    has a timestamp without a text form. *)
Lemma first_invalid_entry_decides w request env data :
  submission w request env data ->
  existsb (fun entry => negb (has_message entry)) (logs_of data) = true ->
  exists pre entry post t r,
    logs_of data = pre ++ entry :: post /\
    forallb good_entry pre = true /\ good_entry entry = false /\
    respond w request env = (t, inr r) /\
    no_fetch t /\
    status r = (if nullish entry || (has_message entry && metadata_ok entry)
                then 500 else 400).
Proof.
  intros Hsub Hmissing.
  assert (Hbadlogs : forallb good_entry (logs_of data) = false).
  { destruct (forallb good_entry (logs_of data)) eqn:Hall; [|reflexivity].
    rewrite (good_entries_have_message _ Hall) in Hmissing. discriminate. }
  destruct (first_invalid_entry _ Hbadlogs) as (pre & entry & post & Hlogs & Hpre & Hbad).
  exists pre, entry, post.
  rewrite (respond_submission _ _ _ _ Hsub), Hlogs, run_build_values_app.
  destruct (run_build_values_good w pre [E_request_text] [] Hpre)
    as (t1 & vals & Hrun & Hclock & _).
  rewrite Hrun, run_build_values_cons.
  pose proof (entry_completion_bad (clock w (ticks t1)) entry ([] ++ vals) Hbad) as Hc.
  assert (Hnone : no_fetch (entry_trace t1 entry)).
  { unfold no_fetch.
    rewrite (clock_only_fetched _ _ (entry_trace_clock_only t1 entry)),
      (clock_only_fetched _ _ Hclock). reflexivity. }
  destruct (entry_completion (clock w (ticks t1)) entry ([] ++ vals)) as [vs|r|e].
  - contradiction.
  - destruct Hc as [Hst Hcond]. exists (entry_trace t1 entry), r.
    rewrite Hcond. auto 10.
  - exists (entry_trace t1 entry), (error_response e). rewrite Hc. auto 10.
Qed.

(** C4. A query-parameter label name is accepted if and only if it
    matches the grammar [[a-zA-Z_:][a-zA-Z0-9_:]*] and does not both
    start and end with an underscore; [_foo_] and [1foo] are rejected,
    [foo_bar], [_foo] and [foo:bar] are accepted. In the handler, the
    first rejected name of a submission whose entries are valid is
    answered with a 400 that names it, before any call to the backend;
    when every name is accepted the submission is pushed. *)
Theorem C4_label_names :
  (forall name,
     validateLabelName name = true <->
     label_grammar name /\ ~ underscore_wrapped name) /\
  validateLabelName "_foo_" = false /\
  validateLabelName "1foo" = false /\
  validateLabelName "foo_bar" = true /\
  validateLabelName "_foo" = true /\
  validateLabelName "foo:bar" = true /\
  (forall w request env data t vals,
     submission w request env data ->
     run w [E_request_text] (build_values (logs_of data) []) = (t, Normal vals) ->
     (forall pre key value post,
        searchParams_entries request = pre ++ (key, value) :: post ->
        forallb (fun kv => validateLabelName (fst kv)) pre = true ->
        validateLabelName key = false ->
        respond w request env = (t, inr (plain_response (msg_label key) 400)) /\
        no_fetch t) /\
     (forallb (fun kv => validateLabelName (fst kv)) (searchParams_entries request)
      = true ->
      fetched (fst (respond w request env))
      = [(lokiUrl env, push_init request env vals)])).
Proof.
  split; [exact validateLabelName_iff|].
  do 5 (split; [vm_compute; reflexivity|]).
  intros w request env data t vals Hsub Hrun.
  destruct (run_build_values_inv w (logs_of data) [E_request_text] [])
    as (t' & c & Hrun' & Hclock & _).
  rewrite Hrun in Hrun'. injection Hrun' as <- <-.
  apply clock_only_fetched in Hclock.
  rewrite (respond_submission _ _ _ _ Hsub), Hrun. unfold dispatch. split.
  - intros pre key value post Hsplit Hpre Hkey.
    assert (Hfirst : first_invalid_label (searchParams_entries request) = Some key).
    { apply first_invalid_label_split. eauto 6. }
    rewrite Hfirst. split; [reflexivity | exact Hclock].
  - intros Hall. apply first_invalid_label_none in Hall. rewrite Hall.
    cbn [fst]. rewrite fetched_app, Hclock. reflexivity.
Qed.

(** C5 (as amended). For every entry with a message whose metadata is
    present and truthy: a metadata value that is an array or is not an
    object causes the 400 response 'Metadata must be an object'; in a
    metadata object, the first key (in property order) whose value is a
    non-null object or an array causes a 400 response naming that key;
    a metadata object with scalar values only (string, number, boolean,
    null) is accepted. Metadata that is present but falsy (false, 0, the
    empty string, null) is treated as absent: the iteration runs exactly
    as for the entry without the field, returns no 400, and pushes the
    two-element tuple. *)
Theorem C5_metadata_validation w t entry vals :
  has_message entry = true ->
  (Js.truthy (field entry "metadata") = true ->
   (Js.Array_isArray (field entry "metadata") = true \/
    Js.typeof (field entry "metadata") <> Js.T_object ->
    run w t (process_entry entry vals)
    = (after_timestamp t entry, Returned (plain_response msg_metadata_object 400))) /\
   (forall pre key value post,
      field entry "metadata" = JObj (pre ++ (key, value) :: post) ->
      forallb (fun kv => scalar (snd kv)) pre = true ->
      Js.typeof value = Js.T_object -> value <> JNull ->
      run w t (process_entry entry vals)
      = (after_timestamp t entry, Returned (plain_response (msg_nested key) 400))) /\
   (forall props,
      field entry "metadata" = JObj props ->
      forallb (fun kv => scalar (snd kv)) props = true ->
      (forall t' r, run w t (process_entry entry vals) <> (t', Returned r)) /\
      (timestamp_ok entry = true ->
       run w t (process_entry entry vals)
       = (after_timestamp t entry,
          Normal (vals ++ [tuple_of (clock w (ticks t)) entry]))))) /\
  (Js.truthy (field entry "metadata") = false ->
   run w t (process_entry entry vals)
   = run w t (process_entry (without_metadata entry) vals) /\
   field (without_metadata entry) "metadata" = JUndefined /\
   (forall t' r, run w t (process_entry entry vals) <> (t', Returned r)) /\
   (timestamp_ok entry = true ->
    run w t (process_entry entry vals)
    = (after_timestamp t entry,
       Normal (vals ++ [[JStr (timestamp_text (clock w (ticks t)) entry);
                         field entry "message"]])))).
Proof.
  intros Hmsg.
  pose proof (has_message_not_nullish _ Hmsg) as Hnn.
  assert (Htrace : entry_trace t entry = after_timestamp t entry).
  { unfold entry_trace. rewrite Hnn, Hmsg. reflexivity. }
  split.
  - intros Hmd.
    rewrite run_process_entry, Htrace.
    unfold entry_completion. rewrite (get_field _ _ Hnn).
    unfold has_message in Hmsg. rewrite Hmsg, Hmd. cbn [negb].
    split; [|split].
    + intros Hshape.
      destruct (field entry "metadata") as [| | | | | |props]; try reflexivity.
      destruct Hshape as [Harr|Hobj];
        [discriminate Harr | exfalso; apply Hobj; reflexivity].
    + intros pre key value post -> Hpre Hobj Hnull.
      assert (Hfirst : first_nested (pre ++ (key, value) :: post) = Some key).
      { apply first_nested_split. exists pre, value, post.
        split; [reflexivity|]. split; [exact Hpre|].
        destruct value; try reflexivity; try discriminate Hobj.
        exfalso; apply Hnull; reflexivity. }
      rewrite Hfirst. reflexivity.
    + intros props Emd Hflat. rewrite Emd.
      apply first_nested_flat in Hflat. rewrite Hflat. split.
      * intros t' r.
        destruct (Js.toString "timestamp.toString"
                    (timestamp_value (clock w (ticks t)) entry)); discriminate.
      * intros Hts. rewrite (toString_timestamp_value _ _ Hts).
        unfold tuple_of. rewrite Emd. reflexivity.
  - intros Hmd.
    assert (Hfield : forall key, String.eqb "metadata" key = false ->
              field (without_metadata entry) key = field entry key).
    { intros key Hkey. unfold field. rewrite get_without_metadata, Hkey.
      reflexivity. }
    assert (Hgone : field (without_metadata entry) "metadata" = JUndefined).
    { unfold field. rewrite get_without_metadata.
      cbn [String.eqb Ascii.eqb Bool.eqb].
      destruct (Js.get entry "metadata"); reflexivity. }
    assert (Hnull : nullish (without_metadata entry) = nullish entry)
      by (destruct entry; reflexivity).
    assert (Hcompletion :
      entry_completion (clock w (ticks t)) entry vals
      = match Js.toString "timestamp.toString"
                (timestamp_value (clock w (ticks t)) entry) with
        | inl e => Thrown e
        | inr text => Normal (vals ++ [[JStr text; field entry "message"]])
        end).
    { unfold entry_completion. rewrite (get_field _ _ Hnn).
      unfold has_message in Hmsg. rewrite Hmsg, Hmd, (falsy_has_no_keys _ Hmd).
      reflexivity. }
    split; [|split; [exact Hgone|split]].
    + rewrite !run_process_entry, Hcompletion.
      unfold entry_trace, after_timestamp, entry_completion, timestamp_value,
        has_message.
      rewrite Hnull, Hgone, !Hfield by reflexivity.
      rewrite get_without_metadata, (get_field _ _ Hnn).
      cbn [String.eqb Ascii.eqb Bool.eqb Js.truthy negb has_keys].
      unfold has_message in Hmsg. rewrite Hmsg. reflexivity.
    + intros t' r. rewrite run_process_entry, Hcompletion.
      destruct (Js.toString "timestamp.toString"
                  (timestamp_value (clock w (ticks t)) entry)); discriminate.
    + intros Hts. rewrite run_process_entry, Hcompletion, Htrace,
        (toString_timestamp_value _ _ Hts). reflexivity.
Qed.

(** C6 (as amended). In the label set of every push the worker sends,
    the label [proxy] is the fixed value [miti-loki] and the label [ip]
    is the resolved client address, whatever [proxy] or [ip] query
    parameters the caller supplied; the other labels are the caller's.
    The resolved address is the [CF-Connecting-IP] header if it is
    present and not empty, else the [X-Forwarded-For] header if it is
    present and not empty, else [unknown]. *)
Theorem C6_system_labels w request env url init :
  In (url, init) (fetched (fst (respond w request env))) ->
  (exists vals,
     init_body init
     = {| streams := [ {| stream := final_stream request; values := vals |} ] |}) /\
  final_stream request !! "proxy" = Some "miti-loki" /\
  final_stream request !! "ip" = Some (clientIP request) /\
  (forall key, key <> "proxy" -> key <> "ip" ->
     final_stream request !! key
     = collect_labels (searchParams_entries request) ∅ !! key) /\
  (forall ip, headers_get request "CF-Connecting-IP" = Some ip ->
     Str.truthy ip = true -> clientIP request = ip) /\
  (opt_truthy (headers_get request "CF-Connecting-IP") = false ->
   forall ip, headers_get request "X-Forwarded-For" = Some ip ->
     Str.truthy ip = true -> clientIP request = ip) /\
  (opt_truthy (headers_get request "CF-Connecting-IP") = false ->
   opt_truthy (headers_get request "X-Forwarded-For") = false ->
   clientIP request = "unknown").
Proof.
  intros Hin.
  destruct (respond_fetched _ _ _ _ _ Hin)
    as (data & t & vals & _ & _ & _ & _ & -> & _).
  split; [exists vals; reflexivity|].
  unfold final_stream.
  split; [rewrite lookup_insert_ne by discriminate; apply lookup_insert_eq|].
  split; [apply lookup_insert_eq|].
  split; [intros key Hproxy Hip; rewrite !lookup_insert_ne by congruence;
          reflexivity|].
  unfold clientIP, opt_truthy, or_else.
  destruct (headers_get request "CF-Connecting-IP") as [cf|];
    destruct (headers_get request "X-Forwarded-For") as [xff|];
    repeat split; intros; simplify_eq; try reflexivity;
    repeat match goal with
           | E : Str.truthy ?s = _ |- _ => rewrite E in *
           end; try reflexivity; try discriminate.
Qed.

(** C7. For every POST where the configured backend host, username or
    password is missing (unset, or empty), the worker returns the 500
    server-configuration error at once: the handler is that [return] and
    nothing else, so the request body is never read or parsed and no
    error derived from the request can be returned. *)
Theorem C7_configuration_checked_first w request env :
  method request = "POST" ->
  opt_truthy (LOKI_HOST env) = false \/ opt_truthy (LOKI_USERNAME env) = false
  \/ opt_truthy (LOKI_PASSWORD env) = false ->
  handleRequest request env
  = Return (plain_response
              "Server configuration error: Missing Loki credentials" 500) /\
  respond w request env
  = ([], inr (plain_response
                "Server configuration error: Missing Loki credentials" 500)).
Proof.
  intros Hpost Hmissing.
  assert (Hconf : configured env = false).
  { unfold configured. destruct Hmissing as [E|[E|E]]; rewrite E;
      rewrite ?andb_false_r; reflexivity. }
  split.
  - unfold handleRequest. rewrite Hpost, configured_guard, Hconf. reflexivity.
  - rewrite respond_unfold, Hpost, Hconf. reflexivity.
Qed.

(** C8 (as amended). The scheme of the outbound URL is [https] exactly
    when the port binding [LOKI_PORT] is unset, empty or the string
    [443], and [http] for any other port value; the URL is the fixed
    endpoint [/loki/api/v1/push] on the configured host and port (443
    when the binding is unset or empty), and every call to the backend
    goes to it. *)
Theorem C8_outbound_url env :
  (protocol env = "https" <->
   LOKI_PORT env = None \/ LOKI_PORT env = Some EmptyString
   \/ LOKI_PORT env = Some "443") /\
  (forall port, LOKI_PORT env = Some port -> port <> EmptyString ->
     port <> "443" -> protocol env = "http" /\ lokiPort env = port) /\
  (LOKI_PORT env = None \/ LOKI_PORT env = Some EmptyString -> lokiPort env = "443") /\
  lokiUrl env
  = protocol env +:+ "://" +:+ interpolate (LOKI_HOST env) +:+ ":" +:+ lokiPort env
    +:+ "/loki/api/v1/push" /\
  (forall w request url init,
     In (url, init) (fetched (fst (respond w request env))) ->
     exists host,
       LOKI_HOST env = Some host /\
       url = protocol env +:+ "://" +:+ host +:+ ":" +:+ lokiPort env
             +:+ "/loki/api/v1/push").
Proof.
  split; [|split; [|split; [|split]]].
  - unfold protocol, lokiPort, or_else.
    destruct (LOKI_PORT env) as [[|c port]|]; cbn [Str.truthy].
    + split; [auto | reflexivity].
    + destruct (String.eqb (String c port) "443") eqn:E.
      * apply String.eqb_eq in E. rewrite E. split; [auto | reflexivity].
      * apply String.eqb_neq in E. split; [discriminate|].
        intros [H0|[H0|H0]]; [discriminate H0 | discriminate H0 |].
        exfalso. apply E. congruence.
    + split; [auto | reflexivity].
  - intros port Hport Hne H443. unfold protocol, lokiPort, or_else.
    rewrite Hport. destruct port as [|c port]; [contradiction|].
    cbn [Str.truthy]. apply String.eqb_neq in H443. rewrite H443. auto.
  - unfold lokiPort, or_else. intros [E|E]; rewrite E; reflexivity.
  - reflexivity.
  - intros w request url init Hin.
    destruct (respond_fetched _ _ _ _ _ Hin)
      as (data & t & vals & (_ & Hconf & _) & _ & _ & -> & _).
    unfold configured in Hconf.
    destruct (LOKI_HOST env) as [host|] eqn:Hhost; [|discriminate Hconf].
    exists host. split; [reflexivity|]. unfold lokiUrl. rewrite Hhost. reflexivity.
Qed.

(** C9 (as amended). For a POST whose body is a JSON array in which a
    [null] element is preceded by valid entries only, the worker returns
    a 500 response whose message begins 'Error forwarding to Loki:' (the
    [catch] block of the handler), not a 400 validation error: reading
    the [message] property of [null] throws. No call to the backend is
    made. *)
Theorem C9_null_entry_is_a_server_error w request env data pre post :
  submission w request env data ->
  logs_of data = pre ++ JNull :: post ->
  forallb good_entry pre = true ->
  exists t,
    respond w request env
    = (t, inr (plain_response
                 ("Error forwarding to Loki: "
                  +:+ type_error_text (Property_of_null "message")) 500)) /\
    no_fetch t.
Proof.
  intros Hsub Hlogs Hpre.
  rewrite (respond_submission _ _ _ _ Hsub), Hlogs, run_build_values_app.
  destruct (run_build_values_good w pre [E_request_text] [] Hpre)
    as (t & vals & Hrun & Hclock & _).
  rewrite Hrun, run_build_values_cons. cbn.
  exists t. split; [reflexivity|].
  unfold no_fetch. rewrite (clock_only_fetched _ _ Hclock). reflexivity.
Qed.

Lemma get_without_timestamp entry key :
  Js.get (without_timestamp entry) key
  = if String.eqb "timestamp" key
    then match Js.get entry key with inl e => inl e | inr _ => inr JUndefined end
    else Js.get entry key.
Proof.
  destruct entry as [| | | | | |props]; cbn [without_timestamp Js.get];
    try (destruct (String.eqb "timestamp" key); reflexivity).
  rewrite own_property_filter.
  destruct (String.eqb "timestamp" key); reflexivity.
Qed.

(** C10. For every entry whose [timestamp] field is present but falsy
    (empty string, 0, false or null) the iteration runs exactly as it
    does for the entry without the field: the entry is not rejected for
    it, and where the entry is otherwise valid its tuple carries the
    synthesized default, [Date.now() * 1000000] as text, read from the
    clock at that moment. *)
Theorem C10_falsy_timestamp_defaulted w t entry vals :
  Js.truthy (field entry "timestamp") = false ->
  run w t (process_entry entry vals)
  = run w t (process_entry (without_timestamp entry) vals) /\
  field (without_timestamp entry) "timestamp" = JUndefined /\
  (has_message entry = true -> metadata_ok entry = true ->
   run w t (process_entry entry vals)
   = (t ++ [E_date_now],
      Normal (vals ++ [JStr (default_timestamp (clock w (ticks t)))
                       :: field entry "message"
                       :: (if has_keys (field entry "metadata")
                           then [field entry "metadata"] else [])]))).
Proof.
  intros Hts.
  assert (Hfield : forall key, String.eqb "timestamp" key = false ->
            field (without_timestamp entry) key = field entry key).
  { intros key Hkey. unfold field. rewrite get_without_timestamp, Hkey.
    reflexivity. }
  assert (Hstamp : field (without_timestamp entry) "timestamp" = JUndefined).
  { unfold field. rewrite get_without_timestamp. cbn [String.eqb Ascii.eqb Bool.eqb].
    destruct (Js.get entry "timestamp"); reflexivity. }
  assert (Hnull : nullish (without_timestamp entry) = nullish entry)
    by (destruct entry; reflexivity).
  split; [|split; [exact Hstamp|]].
  - rewrite !run_process_entry.
    unfold entry_trace, after_timestamp, entry_completion, timestamp_value,
      has_message.
    rewrite Hnull, Hstamp, Hts, !Hfield by reflexivity.
    rewrite get_without_timestamp. reflexivity.
  - intros Hmsg Hmd.
    assert (Hgood : good_entry entry = true).
    { unfold good_entry, timestamp_ok. rewrite Hmsg, Hmd, Hts. reflexivity. }
    rewrite run_process_entry, (entry_completion_good _ _ _ Hgood),
      (entry_trace_good _ _ Hgood).
    unfold after_timestamp, tuple_of, timestamp_text. rewrite Hts. reflexivity.
Qed.

End Properties.

(** ** The properties on concrete requests *)

Local Ltac demo_submission :=
  split; [reflexivity|]; split; [reflexivity|];
  eexists; split; [reflexivity|]; split; vm_compute; reflexivity.

Lemma C1_one_tuple_per_entry_witness :
  submission (Demo.world Demo.text_two) Demo.two_request Demo.env Demo.data_two /\
  forallb good_entry (logs_of Demo.data_two) = true /\
  exists t vals,
    run (Demo.world Demo.text_two) [E_request_text]
      (build_values (logs_of Demo.data_two) []) = (t, Normal vals) /\
    Forall2 tuple_for (logs_of Demo.data_two) vals /\
    length vals = length (logs_of Demo.data_two) /\
    (first_invalid_label (searchParams_entries Demo.two_request) = None ->
     fetched (fst (respond (Demo.world Demo.text_two) Demo.two_request Demo.env))
     = [(lokiUrl Demo.env, push_init Demo.two_request Demo.env vals)]).
Proof.
  assert (Hsub : submission (Demo.world Demo.text_two) Demo.two_request Demo.env
                   Demo.data_two) by demo_submission.
  assert (Hall : forallb good_entry (logs_of Demo.data_two) = true)
    by (vm_compute; reflexivity).
  exact (conj Hsub (conj Hall (C1_one_tuple_per_entry _ _ _ _ Hsub Hall))).
Defined.

(** A message alone is not enough: an entry with a message and a text
    where the metadata object should be is refused, and no values array
    is produced. *)
Lemma C1_counterexample :
  let w := Demo.world Demo.text_text_metadata in
  let request := Demo.post [] Demo.no_headers in
  submission w request Demo.env Demo.data_text_metadata /\
  forallb has_message (logs_of Demo.data_text_metadata) = true /\
  run w [E_request_text] (build_values (logs_of Demo.data_text_metadata) [])
  = ([E_request_text; E_date_now],
     Returned (plain_response msg_metadata_object 400)) /\
  respond w request Demo.env
  = ([E_request_text; E_date_now],
     inr (plain_response msg_metadata_object 400)) /\
  ~ (exists t vals,
       run w [E_request_text] (build_values (logs_of Demo.data_text_metadata) [])
       = (t, Normal vals) /\
       length vals = length (logs_of Demo.data_text_metadata)).
Proof.
  cbv zeta.
  assert (Hrun :
    run (Demo.world Demo.text_text_metadata) [E_request_text]
      (build_values (logs_of Demo.data_text_metadata) [])
    = ([E_request_text; E_date_now],
     Returned (plain_response msg_metadata_object 400)))
    by (vm_compute; reflexivity).
  split; [demo_submission|].
  split; [vm_compute; reflexivity|].
  split; [exact Hrun|].
  split; [vm_compute; reflexivity|].
  intros (t & vals & Hnormal & _). rewrite Hrun in Hnormal. discriminate Hnormal.
Qed.

Lemma C2_tuple_arity_witness :
  let entry : jsval Z :=
    JObj [("message", JStr "a"); ("metadata", JObj [("level", JStr "info")])] in
  good_entry entry = true /\
  exists (ts : string) (tuple : list (jsval Z)),
    run (Demo.world Demo.text_two) [] (process_entry entry [])
    = (after_timestamp [] entry, Normal ([] ++ [tuple])) /\
    (length tuple = 3 <-> has_keys (field entry "metadata") = true) /\
    (length tuple = 2 <-> has_keys (field entry "metadata") = false) /\
    (has_keys (field entry "metadata") = true ->
     tuple = [JStr ts; field entry "message"; field entry "metadata"]) /\
    (has_keys (field entry "metadata") = false ->
     tuple = [JStr ts; field entry "message"]) /\
    (field entry "metadata" = JUndefined \/ field entry "metadata" = JObj [] ->
     length tuple = 2).
Proof.
  cbv zeta. split; [vm_compute; reflexivity|].
  apply (C2_tuple_arity (Demo.world Demo.text_two) []). vm_compute; reflexivity.
Defined.

(** C3. The entries of the submission [[null]] lack a message, and the
    worker does not answer with the 400 of a missing message: reading
    [null.message] throws, and the [catch] block answers 500. Nothing is
    pushed. Every other value without a message in the place of an entry
    -- a number, a text, an empty object -- gets the 400. *)
Theorem C3_null_entry_answered_500 :
  let w := Demo.world Demo.text_null in
  let request := Demo.post [] Demo.no_headers in
  submission w request Demo.env Demo.data_null /\
  existsb (fun entry => negb (has_message entry)) (logs_of Demo.data_null) = true /\
  respond w request Demo.env
  = ([E_request_text],
     inr (plain_response
            "Error forwarding to Loki: Cannot read properties of null (reading 'message')"
            500)) /\
  no_fetch (fst (respond w request Demo.env)) /\
  ~ (exists t r, respond w request Demo.env = (t, inr r) /\ status r = 400) /\
  (forall sibling : jsval Z,
     In sibling [JNum 5%Z; JStr "x"; JBool true; JArr []; JObj []] ->
     run w [E_request_text] (build_values [sibling] [])
     = ([E_request_text], Returned (plain_response msg_missing_message 400))).
Proof.
  cbv zeta.
  assert (Hrespond :
    respond (Demo.world Demo.text_null) (Demo.post [] Demo.no_headers) Demo.env
    = ([E_request_text],
       inr (plain_response
              "Error forwarding to Loki: Cannot read properties of null (reading 'message')"
              500))) by (vm_compute; reflexivity).
  split; [demo_submission|]. split; [vm_compute; reflexivity|].
  split; [exact Hrespond|]. split; [rewrite Hrespond; reflexivity|]. split.
  - intros (t & r & Hr & Hst). rewrite Hrespond in Hr.
    injection Hr as _ <-. discriminate Hst.
  - intros sibling Hin. cbn [In] in Hin.
    destruct Hin as [<-|[<-|[<-|[<-|[<-|[]]]]]]; vm_compute; reflexivity.
Qed.

Lemma C5_metadata_validation_witness :
  let w := Demo.world Demo.text_nested_metadata in
  let entry := Demo.data_nested_metadata in
  has_message entry = true /\
  Js.truthy (field entry "metadata") = true /\
  run w [] (process_entry entry [])
  = ([E_date_now], Returned (plain_response (msg_nested "deep") 400)).
Proof.
  cbv zeta.
  assert (Hmsg : has_message Demo.data_nested_metadata = true)
    by (vm_compute; reflexivity).
  assert (Hmd : Js.truthy (field Demo.data_nested_metadata "metadata") = true)
    by (vm_compute; reflexivity).
  split; [exact Hmsg|]. split; [exact Hmd|].
  refine (proj1 (proj2 (proj1 (C5_metadata_validation
            (Demo.world Demo.text_nested_metadata) [] Demo.data_nested_metadata []
            Hmsg) Hmd))
          [("ok", JNum 1%Z)] "deep" (JObj []) [("more", JArr [])] _ _ _ _);
    first [vm_compute; reflexivity | discriminate].
Defined.

(** Metadata that is present and not an object -- the boolean [false] --
    is not answered with 'Metadata must be an object': the entry is
    accepted and pushed with a two-element tuple. *)
Lemma C5_counterexample :
  let w := Demo2.world_accepting Demo.text_false_metadata in
  let request := Demo.post [] Demo.no_headers in
  let entry := Demo.data_false_metadata in
  submission w request Demo.env entry /\
  Js.get entry "metadata" = inr (JBool false) /\
  Js.typeof (@JBool Z false) <> Js.T_object /\
  run w [] (process_entry entry [])
  = ([E_date_now], Normal [[JStr "1700000000000000000"; JStr "a"]]) /\
  fetched (fst (respond w request Demo.env))
  = [(lokiUrl Demo.env,
      push_init request Demo.env [[JStr "1700000000000000000"; JStr "a"]])] /\
  (exists t r, respond w request Demo.env = (t, inr r) /\ status r = 200) /\
  ~ (exists t, run w [] (process_entry entry [])
               = (t, Returned (plain_response msg_metadata_object 400))).
Proof.
  cbv zeta.
  assert (Hrun :
    run (Demo2.world_accepting Demo.text_false_metadata) []
      (process_entry Demo.data_false_metadata [])
    = ([E_date_now], Normal [[JStr "1700000000000000000"; JStr "a"]]))
    by (vm_compute; reflexivity).
  split; [demo_submission|]. split; [reflexivity|]. split; [discriminate|].
  split; [exact Hrun|]. split; [vm_compute; reflexivity|]. split.
  - eexists _, _. split; [vm_compute; reflexivity|]. reflexivity.
  - intros (t & Hbad). rewrite Hrun in Hbad. discriminate Hbad.
Qed.

Lemma C6_system_labels_witness :
  let w := Demo.world Demo.text_two in
  In (lokiUrl Demo.env, push_init Demo.two_request Demo.env Demo.two_values)
     (fetched (fst (respond w Demo.two_request Demo.env))) /\
  final_stream Demo.two_request !! "proxy" = Some "miti-loki" /\
  final_stream Demo.two_request !! "ip" = Some "198.51.100.4" /\
  final_stream Demo.two_request !! "app" = Some "web".
Proof.
  cbv zeta.
  assert (Hin : In (lokiUrl Demo.env, push_init Demo.two_request Demo.env Demo.two_values)
                  (fetched (fst (respond (Demo.world Demo.text_two) Demo.two_request
                                   Demo.env))))
    by (left; vm_compute; reflexivity).
  split; [exact Hin|].
  destruct (C6_system_labels _ _ _ _ _ Hin)
    as (_ & Hproxy & Hip & Hother & _).
  split; [exact Hproxy|]. split; [exact Hip|].
  rewrite Hother by discriminate. vm_compute. reflexivity.
Defined.

(** A [CF-Connecting-IP] header that is present but empty does not decide
    the address: the [ip] label is taken from [X-Forwarded-For]. *)
Lemma C6_counterexample :
  let w := Demo.world Demo.text_two in
  let request := Demo.post [("ip", "10.0.0.1")] Demo.empty_cf_headers in
  headers_get request "CF-Connecting-IP" = Some EmptyString /\
  first_present_ip request = EmptyString /\
  fetched (fst (respond w request Demo.env))
  = [(lokiUrl Demo.env, push_init request Demo.env Demo.two_values)] /\
  final_stream request !! "ip" = Some "203.0.113.7" /\
  final_stream request !! "ip" <> Some (first_present_ip request).
Proof.
  cbv zeta. split; [reflexivity|]. split; [reflexivity|].
  split; [vm_compute; reflexivity|].
  assert (Hip : final_stream (Demo.post [("ip", "10.0.0.1")] Demo.empty_cf_headers)
                  !! "ip" = Some "203.0.113.7") by (vm_compute; reflexivity).
  split; [exact Hip|]. rewrite Hip. discriminate.
Qed.

Lemma C7_configuration_checked_first_witness :
  let w := Demo.world Demo.text_two in
  method Demo.two_request = "POST" /\
  opt_truthy (LOKI_PASSWORD Demo.env_no_password) = false /\
  @handleRequest Z Demo.rt Demo.two_request Demo.env_no_password
  = Return (plain_response
              "Server configuration error: Missing Loki credentials" 500) /\
  respond w Demo.two_request Demo.env_no_password
  = ([], inr (plain_response
                "Server configuration error: Missing Loki credentials" 500)).
Proof.
  cbv zeta. split; [reflexivity|]. split; [reflexivity|].
  apply C7_configuration_checked_first; [reflexivity | right; right; reflexivity].
Defined.

(** A port binding set to the empty string is neither unset nor [443],
    and the scheme is [https]. *)
Lemma C8_counterexample :
  LOKI_PORT Demo.env_empty_port <> None /\
  LOKI_PORT Demo.env_empty_port <> Some "443" /\
  protocol Demo.env_empty_port = "https" /\
  lokiUrl Demo.env_empty_port = "https://logs.example.net:443/loki/api/v1/push" /\
  ~ (protocol Demo.env_empty_port = "https" <->
     LOKI_PORT Demo.env_empty_port = None \/
     LOKI_PORT Demo.env_empty_port = Some "443").
Proof.
  split; [discriminate|]. split; [discriminate|].
  split; [reflexivity|]. split; [reflexivity|].
  intros [Hhttps _]. destruct (Hhttps eq_refl) as [E|E]; discriminate E.
Qed.

Lemma C9_null_entry_is_a_server_error_witness :
  let w := Demo.world Demo.text_entry_then_null in
  let request := Demo.post [] Demo.no_headers in
  submission w request Demo.env Demo.data_entry_then_null /\
  exists t,
    respond w request Demo.env
    = (t, inr (plain_response
                 ("Error forwarding to Loki: "
                  +:+ type_error_text (Property_of_null "message")) 500)) /\
    no_fetch t.
Proof.
  cbv zeta. split; [demo_submission|].
  apply (C9_null_entry_is_a_server_error _ _ _ Demo.data_entry_then_null
           [JObj [("message", JStr "a")]] []);
    [demo_submission | reflexivity | vm_compute; reflexivity].
Defined.

(** An array that contains [null] after an entry without a message is
    answered with the 400 of the missing message. *)
Lemma C9_counterexample :
  let w := Demo.world Demo.text_empty_then_null in
  let request := Demo.post [] Demo.no_headers in
  submission w request Demo.env Demo.data_empty_then_null /\
  In JNull (logs_of Demo.data_empty_then_null) /\
  respond w request Demo.env
  = ([E_request_text], inr (plain_response msg_missing_message 400)) /\
  ~ (exists t r, respond w request Demo.env = (t, inr r) /\ status r = 500).
Proof.
  cbv zeta.
  assert (Hrespond :
    respond (Demo.world Demo.text_empty_then_null) (Demo.post [] Demo.no_headers)
      Demo.env
    = ([E_request_text], inr (plain_response msg_missing_message 400)))
    by (vm_compute; reflexivity).
  split; [demo_submission|]. split; [right; left; reflexivity|].
  split; [exact Hrespond|].
  intros (t & r & Hr & Hst). rewrite Hrespond in Hr.
  injection Hr as _ <-. discriminate Hst.
Qed.

Lemma C10_falsy_timestamp_defaulted_witness :
  let w := Demo.world Demo.text_zero_timestamp in
  let entry := Demo.data_zero_timestamp in
  Js.truthy (field entry "timestamp") = false /\
  run w [] (process_entry entry [])
  = run w [] (process_entry (JObj [("message", JStr "a")]) []) /\
  run w [] (process_entry entry [])
  = ([E_date_now], Normal [[JStr "1700000000000000000"; JStr "a"]]).
Proof.
  cbv zeta.
  assert (Hts : Js.truthy (field Demo.data_zero_timestamp "timestamp") = false)
    by (vm_compute; reflexivity).
  assert (Hmsg : has_message Demo.data_zero_timestamp = true)
    by (vm_compute; reflexivity).
  assert (Hmd : metadata_ok Demo.data_zero_timestamp = true)
    by (vm_compute; reflexivity).
  split; [exact Hts|].
  destruct (C10_falsy_timestamp_defaulted (Demo.world Demo.text_zero_timestamp) []
              Demo.data_zero_timestamp [] Hts) as (Hsame & _ & Hdefault).
  split; [exact Hsame|].
  rewrite (Hdefault Hmsg Hmd). vm_compute. reflexivity.
Defined.

(** ** Further properties of the handler *)

Section HandlerProperties.
Context {number : Type} `{!Runtime number}.

Local Abbreviation jsval := (jsval number).

Implicit Types (w : World number) (t : list (event number)) (entry : jsval).

Lemma respond_settle w request env :
  respond w request env = settle w (handleRequest request env).
Proof. reflexivity. Qed.

Lemma method_not_get request :
  method request <> "GET" -> String.eqb (method request) "GET" = false.
Proof. intros Hne. apply String.eqb_neq. exact Hne. Qed.

(** A response returned by the iteration for an entry is a plain 400. *)
Lemma entry_completion_returned now entry vals r :
  entry_completion now entry vals = Returned r ->
  exists msg, r = plain_response msg 400.
Proof.
  unfold entry_completion.
  destruct (Js.get entry "message") as [e|message]; [discriminate|].
  destruct (Js.truthy message); cbn [negb]; [|intros [= <-]; eauto].
  destruct (Js.toString "timestamp.toString" (timestamp_value now entry)).
  - destruct (Js.truthy (field entry "metadata")); cbn [negb]; [|discriminate].
    destruct (field entry "metadata") as [| | | | | |props];
      try (intros [= <-]; eauto).
    destruct (first_nested props); [intros [= <-]; eauto | discriminate].
  - destruct (Js.truthy (field entry "metadata")); cbn [negb]; [|discriminate].
    destruct (field entry "metadata") as [| | | | | |props];
      try (intros [= <-]; eauto).
    destruct (first_nested props); [intros [= <-]; eauto | discriminate].
Qed.

Lemma run_build_values_returned w logs : forall t vals t' r,
  run w t (build_values logs vals) = (t', Returned r) ->
  exists msg, r = plain_response msg 400.
Proof.
  induction logs as [|entry rest IH]; intros t vals t' r; [discriminate|].
  rewrite run_build_values_cons.
  destruct (entry_completion (clock w (ticks t)) entry vals) as [vs|r0|e] eqn:E.
  - apply IH.
  - intros [= _ <-]. eapply entry_completion_returned. exact E.
  - discriminate.
Qed.

Lemma ticks_app t1 t2 : ticks (t1 ++ t2) = ticks t1 + ticks t2.
Proof. unfold ticks. rewrite List.filter_app, List.length_app. reflexivity. Qed.

Lemma body_reads_app t1 t2 : body_reads (t1 ++ t2) = body_reads t1 + body_reads t2.
Proof. unfold body_reads. rewrite List.filter_app, List.length_app. reflexivity. Qed.

Lemma body_reads_replicate k : body_reads (replicate k (@E_date_now number)) = 0.
Proof. induction k; simpl; auto. Qed.

Lemma clock_only_body_reads t t' : clock_only t t' -> body_reads t' = body_reads t.
Proof.
  intros [k ->]. rewrite body_reads_app, body_reads_replicate. apply Nat.add_0_r.
Qed.

(** The handler on a submission whose entries and label names are all
    valid: one push, and the backend's answer relayed. *)
Lemma respond_pushed w request env data :
  submission w request env data ->
  forallb good_entry (logs_of data) = true ->
  forallb (fun kv => validateLabelName (fst kv)) (searchParams_entries request) = true ->
  exists t vals,
    run w [E_request_text] (build_values (logs_of data) []) = (t, Normal vals) /\
    fetched t = [] /\
    respond w request env
    = (t ++ [E_fetch (lokiUrl env) (push_init request env vals)],
       inr (relay (backend w (lokiUrl env) (push_init request env vals)))).
Proof.
  intros Hsub Hall Hlabels.
  destruct (run_build_values_good w (logs_of data) [E_request_text] [] Hall)
    as (t & vals & Hrun & Hclock & _).
  cbn [app] in Hrun. exists t, vals. split; [exact Hrun|].
  split; [rewrite (clock_only_fetched _ _ Hclock); reflexivity|].
  rewrite (respond_submission _ _ _ _ Hsub), Hrun. unfold dispatch.
  apply first_invalid_label_none in Hlabels. rewrite Hlabels. reflexivity.
Qed.

(** X1. The promise of [handleRequest] never rejects: whatever the
    request, the environment and the answers of the outside world, the
    handler settles with a response. *)
Theorem X1_always_a_response w request env :
  exists t r, respond w request env = (t, inr r).
Proof.
  rewrite respond_unfold.
  destruct (String.eqb (method request) "GET"); [eauto|].
  destruct (String.eqb (method request) "POST"); cbn [negb]; [|eauto].
  destruct (configured env); cbn [negb]; [|eauto].
  destruct (request_body w) as [e|text]; [eauto|].
  destruct (Str.truthy text); cbn [negb]; [|eauto].
  destruct (JSON_parse text) as [parseError|data]; [eauto|].
  destruct (run w [E_request_text] (build_values (logs_of data) []))
    as [t [vals|r|e]]; [|eauto|eauto].
  unfold dispatch.
  destruct (first_invalid_label (searchParams_entries request)); eauto.
Qed.

(** X2. Every response of [handleRequest] to a request that is not a GET
    carries the header [Access-Control-Allow-Origin: *], on success and on
    every error path. *)
Theorem X2_cors_on_every_non_get_response w request env t r :
  method request <> "GET" ->
  respond w request env = (t, inr r) ->
  has_header "Access-Control-Allow-Origin" "*" r.
Proof.
  intros Hget. rewrite respond_unfold, (method_not_get _ Hget).
  assert (Hplain : forall msg st,
            has_header "Access-Control-Allow-Origin" "*" (plain_response msg st))
    by (intros; left; reflexivity).
  destruct (String.eqb (method request) "POST"); cbn [negb];
    [|intros [= _ <-]; apply Hplain].
  destruct (configured env); cbn [negb]; [|intros [= _ <-]; apply Hplain].
  destruct (request_body w) as [e|text]; [intros [= _ <-]; apply Hplain|].
  destruct (Str.truthy text); cbn [negb]; [|intros [= _ <-]; apply Hplain].
  destruct (JSON_parse text) as [parseError|data]; [intros [= _ <-]; apply Hplain|].
  destruct (run w [E_request_text] (build_values (logs_of data) []))
    as [t1 [vals|r1|e]] eqn:Hrun.
  - unfold dispatch.
    destruct (first_invalid_label (searchParams_entries request));
      [intros [= _ <-]; apply Hplain|].
    intros [= _ <-]. unfold relay.
    destruct (backend w (lokiUrl env) (push_init request env vals)) as [e|lr];
      [apply Hplain|].
    destruct (lr_text lr) as [e|responseText]; [apply Hplain|].
    unfold relayed_response, new_Response_checked.
    destruct (Response_init_error (Some responseText) (lr_status lr)
                (lr_statusText lr)); [apply Hplain|].
    right; left; reflexivity.
  - intros [= _ <-].
    destruct (run_build_values_returned _ _ _ _ _ _ Hrun) as [msg ->]. apply Hplain.
  - intros [= _ <-]. apply Hplain.
Qed.

(** X3. A request whose method is not POST is answered without any
    effect and without looking at the environment: a GET with the 302
    redirect to the repository (a [Location] header and nothing else, no
    body), any other method with the 405 'Method not allowed'. *)
Theorem X3_routing_of_other_methods w request env :
  method request <> "POST" ->
  respond w request env
  = ([], inr (if String.eqb (method request) "GET"
              then new_Response None 302 EmptyString
                     [("Location", "https://github.com/tiennm99/miti-loki")]
              else plain_response "Method not allowed. Please use POST." 405)).
Proof.
  intros Hpost. apply String.eqb_neq in Hpost.
  rewrite respond_unfold, Hpost.
  destruct (String.eqb (method request) "GET"); reflexivity.
Qed.

(** X4. A POST to a configured worker whose body cannot be used is
    answered after the one read of the body, before the clock is read or
    the backend called: a body that cannot be read with the 500 of the
    [catch] block carrying the error's message, an empty body with the 400
    'Request body is required', a body that is not JSON with the 400
    'Invalid JSON: ' followed by the parser's message. *)
Theorem X4_unusable_body w request env :
  method request = "POST" ->
  configured env = true ->
  (forall e, request_body w = inl e ->
     respond w request env
     = ([E_request_text],
        inr (plain_response ("Error forwarding to Loki: " +:+ error_message e) 500))) /\
  (request_body w = inr EmptyString ->
     respond w request env
     = ([E_request_text], inr (plain_response "Request body is required" 400))) /\
  (forall text parseError,
     request_body w = inr text -> Str.truthy text = true ->
     JSON_parse text = inl parseError ->
     respond w request env
     = ([E_request_text],
        inr (plain_response ("Invalid JSON: " +:+ error_message parseError) 400))).
Proof.
  intros Hpost Hconf. rewrite respond_unfold, Hpost, Hconf.
  cbn [String.eqb Ascii.eqb Bool.eqb negb]. split; [|split].
  - intros e ->. reflexivity.
  - intros ->. reflexivity.
  - intros text parseError -> -> ->. reflexivity.
Qed.

(** The responses the program builds from literals are accepted by the
    constructor: the statuses 400, 405 and 500 with a text, the 204 of
    the preflight without a body, the 302 of the redirect. *)
Lemma literal_responses_construct (text : string) hs :
  new_Response_checked (Some text) 400 EmptyString hs
  = inr (new_Response (Some text) 400 EmptyString hs) /\
  new_Response_checked (Some text) 405 EmptyString hs
  = inr (new_Response (Some text) 405 EmptyString hs) /\
  new_Response_checked (Some text) 500 EmptyString hs
  = inr (new_Response (Some text) 500 EmptyString hs) /\
  new_Response_checked None 204 EmptyString hs
  = inr (new_Response None 204 EmptyString hs) /\
  new_Response_checked None 302 EmptyString hs
  = inr (new_Response None 302 EmptyString hs).
Proof. repeat split. Qed.


(** X6. When the push fails -- [fetch] rejects, or reading the backend's
    response body rejects -- the handler answers with the 500 'Error
    forwarding to Loki: ' followed by the error's message; the backend
    was called once and is not called again. *)
Theorem X6_backend_failure w request env data e :
  submission w request env data ->
  forallb good_entry (logs_of data) = true ->
  forallb (fun kv => validateLabelName (fst kv)) (searchParams_entries request) = true ->
  (forall init, backend w (lokiUrl env) init = inl e) \/
  (exists lr, (forall init, backend w (lokiUrl env) init = inr lr) /\ lr_text lr = inl e) ->
  exists t,
    respond w request env
    = (t, inr (plain_response ("Error forwarding to Loki: " +:+ error_message e) 500)) /\
    length (fetched t) = 1.
Proof.
  intros Hsub Hall Hlabels Hfail.
  destruct (respond_pushed _ _ _ _ Hsub Hall Hlabels)
    as (t & vals & _ & Hnone & Hrespond).
  rewrite Hrespond. unfold relay.
  eexists. split.
  - destruct Hfail as [Hdown|(lr & Hup & Htext)].
    + rewrite Hdown. reflexivity.
    + rewrite Hup, Htext. reflexivity.
  - rewrite fetched_app, Hnone. reflexivity.
Qed.

(** X7. In one run the handler reads the request body once if the
    request is a POST to a configured worker and never otherwise, and it
    calls the backend at most once. *)
Theorem X7_effects_bounded w request env :
  body_reads (fst (respond w request env))
  = (if String.eqb (method request) "POST" && configured env then 1 else 0) /\
  length (fetched (fst (respond w request env))) <= 1.
Proof.
  rewrite respond_unfold.
  destruct (String.eqb (method request) "GET") eqn:Hget.
  { apply String.eqb_eq in Hget. rewrite Hget. split; [reflexivity | cbn; lia]. }
  destruct (String.eqb (method request) "POST"); cbn [negb andb];
    [|split; [reflexivity | cbn; lia]].
  destruct (configured env); cbn [negb]; [|split; [reflexivity | cbn; lia]].
  destruct (request_body w) as [e|text]; [split; [reflexivity | cbn; lia]|].
  destruct (Str.truthy text); cbn [negb]; [|split; [reflexivity | cbn; lia]].
  destruct (JSON_parse text) as [parseError|data]; [split; [reflexivity | cbn; lia]|].
  destruct (run_build_values_inv w (logs_of data) [E_request_text] [])
    as (t & c & Hrun & Hclock & _).
  rewrite Hrun.
  pose proof (clock_only_fetched _ _ Hclock) as Hf.
  pose proof (clock_only_body_reads _ _ Hclock) as Hb.
  change (fetched [E_request_text]) with (@nil (string * FetchInit number)) in Hf.
  change (body_reads [E_request_text]) with 1 in Hb.
  destruct c as [vals|r|e]; cbn [fst]; try (rewrite Hf, Hb; split; [reflexivity | cbn; lia]).
  unfold dispatch.
  destruct (first_invalid_label (searchParams_entries request)); cbn [fst].
  - rewrite Hf, Hb. split; [reflexivity | cbn; lia].
  - rewrite fetched_app, body_reads_app, Hf, Hb. split; [reflexivity | cbn; lia].
Qed.

End HandlerProperties.

Section PayloadProperties.
Context {number : Type} `{!Runtime number}.

Local Abbreviation jsval := (jsval number).

Implicit Types (w : World number) (t : list (event number)) (entry : jsval).

Lemma collect_labels_lookup (entries : list (string * string)) : forall st key,
  collect_labels entries st !! key
  = match last_value key entries with
    | Some v => Some v
    | None => st !! key
    end.
Proof.
  unfold collect_labels.
  induction entries as [|[k v] rest IH]; intros st key; [reflexivity|].
  cbn [foldl last_value fst snd]. rewrite IH.
  destruct (last_value key rest); [reflexivity|].
  destruct (String.eqb k key) eqn:E.
  - apply String.eqb_eq in E. subst k. apply lookup_insert_eq.
  - apply String.eqb_neq in E. apply lookup_insert_ne. exact E.
Qed.

(** X8. Every call to the backend is a POST with the headers
    [Content-Type: application/json] and [Authorization: Basic] followed
    by [btoa] of the configured username and password joined by a colon;
    its payload has exactly one stream. *)
Theorem X8_outbound_request w request env url init :
  In (url, init) (fetched (fst (respond w request env))) ->
  init_method init = "POST" /\
  (exists user pass,
     LOKI_USERNAME env = Some user /\ LOKI_PASSWORD env = Some pass /\
     init_headers init
     = [("Content-Type", "application/json");
        ("Authorization", "Basic " +:+ btoa (user +:+ ":" +:+ pass))]) /\
  length (streams (init_body init)) = 1.
Proof.
  intros Hin.
  destruct (respond_fetched _ _ _ _ _ Hin)
    as (data & t & vals & (_ & Hconf & _) & _ & _ & _ & -> & _).
  split; [reflexivity|]. split; [|reflexivity].
  unfold configured in Hconf.
  apply andb_true_iff in Hconf as [Hconf Hp].
  apply andb_true_iff in Hconf as [_ Hu].
  destruct (LOKI_USERNAME env) as [user|] eqn:Huser; [|discriminate Hu].
  destruct (LOKI_PASSWORD env) as [pass|] eqn:Hpass; [|discriminate Hp].
  exists user, pass. split; [reflexivity|]. split; [reflexivity|].
  cbn [push_init init_headers]. unfold auth. rewrite Huser, Hpass. reflexivity.
Qed.

(** X9. In the label set of every push, a label other than [proxy] and
    [ip] has the value of the last query parameter of that name, and is
    absent when the query has no such parameter. *)
Theorem X9_caller_labels w request env url init :
  In (url, init) (fetched (fst (respond w request env))) ->
  exists s,
    streams (init_body init) = [s] /\
    forall key, key <> "proxy" -> key <> "ip" ->
      stream s !! key = last_value key (searchParams_entries request).
Proof.
  intros Hin.
  destruct (respond_fetched _ _ _ _ _ Hin)
    as (data & t & vals & _ & _ & _ & _ & -> & _).
  eexists. split; [reflexivity|].
  intros key Hproxy Hip. cbn [stream]. unfold final_stream.
  rewrite !lookup_insert_ne by congruence.
  rewrite collect_labels_lookup, lookup_empty.
  destruct (last_value key (searchParams_entries request)); reflexivity.
Qed.

(** X10. A valid entry that brings a non-empty text as its timestamp
    keeps it: the tuple starts with that text and the clock is not read. *)
Theorem X10_given_timestamp_kept w t entry vals s :
  good_entry entry = true ->
  field entry "timestamp" = JStr s ->
  Str.truthy s = true ->
  run w t (process_entry entry vals)
  = (t, Normal (vals ++ [JStr s :: field entry "message"
                         :: (if has_keys (field entry "metadata")
                             then [field entry "metadata"] else [])])).
Proof.
  intros Hgood Hts Hs.
  rewrite run_process_entry, (entry_completion_good _ _ _ Hgood),
    (entry_trace_good _ _ Hgood).
  unfold after_timestamp, tuple_of, timestamp_text. rewrite Hts.
  cbn [Js.truthy]. rewrite Hs. reflexivity.
Qed.

(** X11. On valid entries the loop returns exactly the tuples of the
    entries in order, appended to the array it started with; the clock is
    read once for each entry without a timestamp, in order, so that the
    k-th such entry gets the k-th reading. *)
Theorem X11_values_of_valid_entries w (logs : list jsval) : forall t vals,
  forallb good_entry logs = true ->
  run w t (build_values logs vals)
  = (t ++ replicate (defaulted logs) E_date_now,
     Normal (vals ++ values_from (clock w) (ticks t) logs)).
Proof.
  induction logs as [|entry rest IH]; intros t vals Hall.
  - cbn. rewrite !app_nil_r. reflexivity.
  - cbn [forallb] in Hall. apply andb_true_iff in Hall as [Hgood Hrest].
    rewrite run_build_values_cons, (entry_completion_good _ _ _ Hgood),
      (entry_trace_good _ _ Hgood), (IH _ _ Hrest).
    unfold defaulted, after_timestamp. cbn [List.filter values_from].
    destruct (Js.truthy (field entry "timestamp")); cbn [negb length replicate].
    + rewrite <- app_assoc. reflexivity.
    + rewrite ticks_app, <- !app_assoc.
      change (ticks [E_date_now]) with 1. rewrite Nat.add_1_r. reflexivity.
Qed.

(** X12. The loop stops at the first entry that is not valid: the entries
    after it are not looked at, so they change neither the outcome nor
    the trace. *)
Theorem X12_loop_stops_at_first_failure w t (pre post : list jsval) entry vals :
  forallb good_entry pre = true ->
  good_entry entry = false ->
  run w t (build_values (pre ++ entry :: post) vals)
  = run w t (build_values (pre ++ [entry]) vals) /\
  forall t' vs, run w t (build_values (pre ++ entry :: post) vals) <> (t', Normal vs).
Proof.
  intros Hpre Hbad.
  rewrite !run_build_values_app.
  destruct (run_build_values_good w pre t vals Hpre) as (t1 & new & -> & _ & _).
  rewrite !run_build_values_cons.
  pose proof (entry_completion_inv (clock w (ticks t1)) entry (vals ++ new)) as Hinv.
  destruct (entry_completion (clock w (ticks t1)) entry (vals ++ new)) as [vs|r|e].
  - destruct Hinv as [Hgood _]. congruence.
  - split; [reflexivity | discriminate].
  - split; [reflexivity | discriminate].
Qed.

(** X13. The entries are validated before the label names: when some
    entry of a submission is not valid, the response and the trace do not
    depend on the query string at all. *)
Theorem X13_entries_before_labels w request env data query :
  submission w request env data ->
  forallb good_entry (logs_of data) = false ->
  respond w (with_query request query) env = respond w request env.
Proof.
  intros Hsub Hbad.
  assert (Hsub' : submission w (with_query request query) env data)
    by (destruct Hsub as (Hpost & Hrest); split; [exact Hpost | exact Hrest]).
  rewrite (respond_submission _ _ _ _ Hsub), (respond_submission _ _ _ _ Hsub').
  destruct (run_build_values_inv w (logs_of data) [E_request_text] [])
    as (t & c & -> & _ & Hc).
  destruct c as [vals|r|e]; [|reflexivity|reflexivity].
  destruct Hc as [Hall _]. congruence.
Qed.

(** X14. Within an entry the message is checked first: an entry (not
    [null]) without a non-empty message is refused with 'Each log entry
    must have a "message" field' whatever its metadata and timestamp are,
    and the clock is not read for it. *)
Theorem X14_message_checked_first w t entry vals :
  nullish entry = false ->
  has_message entry = false ->
  run w t (process_entry entry vals)
  = (t, Returned (plain_response msg_missing_message 400)).
Proof.
  intros Hnn Hmsg.
  rewrite run_process_entry, (entry_trace_no_message _ _ Hmsg),
    (entry_completion_no_message _ _ _ Hmsg), (get_field _ _ Hnn).
  reflexivity.
Qed.

End PayloadProperties.

(** ** The entry points and the earlier versions *)

Section EntryPoints.
Context {number : Type} `{!Runtime number}.

Implicit Types (w : World number) (t : list (event number)).

(** X15. Through the module's [fetch] handler an OPTIONS request is
    answered by [handleOptions] without any effect, whatever the
    environment: status 204, no body, the three CORS headers and a
    preflight lifetime of 86400 seconds. [handleRequest] itself would
    answer the same request with 405. *)
Theorem X15_preflight w request env :
  method request = "OPTIONS" ->
  settle w (worker_fetch request env)
  = ([], inr (new_Response None 204 EmptyString
                [("Access-Control-Allow-Origin", "*");
                 ("Access-Control-Allow-Methods", "POST, OPTIONS");
                 ("Access-Control-Allow-Headers", "Content-Type");
                 ("Access-Control-Max-Age", "86400")])) /\
  respond w request env
  = ([], inr (plain_response "Method not allowed. Please use POST." 405)).
Proof.
  intros Hmethod. split.
  - unfold settle, worker_fetch. rewrite Hmethod. reflexivity.
  - rewrite respond_unfold, Hmethod. reflexivity.
Qed.

(** X16. Through the legacy listener, an event that carries no [env]
    gets the empty environment: every POST is then answered with the 500
    configuration error and its body is never read. With an [env] on the
    event and a method other than OPTIONS, the listener answers as
    [handleRequest] does. *)
Theorem X16_listener_without_env w event :
  method (event_request event) = "POST" ->
  (event_env event = None ->
   settle w (listener event)
   = ([], inr (plain_response
                 "Server configuration error: Missing Loki credentials" 500))) /\
  (forall env, event_env event = Some env ->
   settle w (listener event) = respond w (event_request event) env).
Proof.
  intros Hpost. unfold listener. cbv zeta. rewrite Hpost.
  cbn [String.eqb Ascii.eqb Bool.eqb]. split.
  - intros ->. rewrite <- respond_settle, respond_unfold, Hpost. reflexivity.
  - intros env ->. reflexivity.
Qed.

(** X17. The first version of the handler ignores the query string: it
    behaves on every request exactly as the current version does on the
    same request with an empty query. *)
Theorem X17_version1_is_current_without_query w request env :
  settle w (Version1.handleRequest request env)
  = respond w (with_query request []) env.
Proof.
  rewrite respond_unfold. unfold settle, Version1.handleRequest.
  cbn [method with_query].
  destruct (String.eqb (method request) "GET"); [reflexivity|].
  destruct (String.eqb (method request) "POST"); cbn [negb]; [|reflexivity].
  rewrite configured_guard.
  destruct (configured env); cbn [negb]; [|reflexivity].
  rewrite run_try_catch. unfold Version1.forward.
  rewrite run_bind, run_request_text. cbn [app].
  destruct (request_body w) as [e|text]; [reflexivity|].
  destruct (Str.truthy text); cbn [negb]; [|reflexivity].
  rewrite run_bind.
  destruct (JSON_parse text) as [parseError|data]; [reflexivity|]. cbn [run].
  rewrite run_bind.
  destruct (run w [E_request_text] (build_values (logs_of data) []))
    as [t [vals|r|e]]; try reflexivity.
  unfold dispatch. cbn [searchParams_entries with_query first_invalid_label].
  rewrite run_bind, run_fetch.
  change ({| init_method := "POST";
             init_headers := [("Content-Type", "application/json");
                              ("Authorization", "Basic " +:+ auth env)];
             init_body :=
               {| streams := [ {| stream := <["ip" := clientIP request]>
                                             (<["proxy" := "miti-loki"]>
                                                (∅ : gmap string string));
                                  values := vals |} ] |} |} : FetchInit number)
    with (push_init (with_query request []) env vals).
  unfold relay.
  destruct (backend w (lokiUrl env) (push_init (with_query request []) env vals))
    as [e|lr]; [reflexivity|].
  rewrite run_bind, run_lift.
  destruct (lr_text lr) as [e|responseText]; [reflexivity|].
  rewrite run_bind, run_lift.
  destruct (relayed_response lr responseText); reflexivity.
Qed.


End EntryPoints.

(** ** The further properties on concrete requests *)

Lemma X2_cors_on_every_non_get_response_witness :
  let w := Demo.world Demo.text_null in
  let request := Demo.post [] Demo.no_headers in
  let r := plain_response
             "Error forwarding to Loki: Cannot read properties of null (reading 'message')"
             500 in
  method request <> "GET" /\
  respond w request Demo.env = ([E_request_text], inr r) /\
  has_header "Access-Control-Allow-Origin" "*" r.
Proof.
  cbv zeta.
  assert (Hget : method (Demo.post [] Demo.no_headers) <> "GET") by discriminate.
  assert (Hrespond :
    respond (Demo.world Demo.text_null) (Demo.post [] Demo.no_headers) Demo.env
    = ([E_request_text],
       inr (plain_response
              "Error forwarding to Loki: Cannot read properties of null (reading 'message')"
              500))) by (vm_compute; reflexivity).
  split; [exact Hget|]. split; [exact Hrespond|].
  exact (X2_cors_on_every_non_get_response _ _ _ _ _ Hget Hrespond).
Defined.

Lemma X3_routing_of_other_methods_witness :
  method (Demo2.with_method "DELETE") <> "POST" /\
  respond (Demo.world Demo.text_two) (Demo2.with_method "DELETE") Demo.env_no_password
  = ([], inr (plain_response "Method not allowed. Please use POST." 405)).
Proof.
  assert (Hpost : method (Demo2.with_method "DELETE") <> "POST") by discriminate.
  split; [exact Hpost|].
  exact (X3_routing_of_other_methods (Demo.world Demo.text_two)
           (Demo2.with_method "DELETE") Demo.env_no_password Hpost).
Defined.

Lemma X4_unusable_body_witness :
  let request := Demo.post [] Demo.no_headers in
  method request = "POST" /\
  configured Demo.env = true /\
  respond Demo2.world_unreadable request Demo.env
  = ([E_request_text],
     inr (plain_response "Error forwarding to Loki: Body has already been used" 500)).
Proof.
  cbv zeta. split; [reflexivity|]. split; [reflexivity|].
  exact (proj1 (X4_unusable_body Demo2.world_unreadable
                  (Demo.post [] Demo.no_headers) Demo.env eq_refl eq_refl)
           (HostError "Body has already been used") eq_refl).
Defined.


Lemma X6_backend_failure_witness :
  let w := Demo2.world_down Demo.text_two in
  submission w Demo.two_request Demo.env Demo.data_two /\
  exists t,
    respond w Demo.two_request Demo.env
    = (t, inr (plain_response "Error forwarding to Loki: connection refused" 500)) /\
    length (fetched t) = 1.
Proof.
  cbv zeta.
  assert (Hsub : submission (Demo2.world_down Demo.text_two) Demo.two_request
                   Demo.env Demo.data_two).
  { split; [reflexivity|]. split; [reflexivity|].
    eexists. split; [reflexivity|]. split; vm_compute; reflexivity. }
  split; [exact Hsub|].
  apply (X6_backend_failure _ _ _ _ (HostError "connection refused") Hsub);
    first [vm_compute; reflexivity | left; intros init; reflexivity].
Defined.

Lemma X8_outbound_request_witness :
  let w := Demo.world Demo.text_two in
  let init := push_init Demo.two_request Demo.env Demo.two_values in
  In (lokiUrl Demo.env, init) (fetched (fst (respond w Demo.two_request Demo.env))) /\
  init_method init = "POST" /\
  (exists user pass,
     LOKI_USERNAME Demo.env = Some user /\ LOKI_PASSWORD Demo.env = Some pass /\
     init_headers init
     = [("Content-Type", "application/json");
        ("Authorization", "Basic " +:+ btoa (user +:+ ":" +:+ pass))]) /\
  length (streams (init_body init)) = 1.
Proof.
  cbv zeta.
  assert (Hin : In (lokiUrl Demo.env,
                    push_init Demo.two_request Demo.env Demo.two_values)
                  (fetched (fst (respond (Demo.world Demo.text_two)
                                   Demo.two_request Demo.env))))
    by (left; vm_compute; reflexivity).
  split; [exact Hin|].
  exact (X8_outbound_request _ _ _ _ _ Hin).
Defined.

Lemma X9_caller_labels_witness :
  let w := Demo.world Demo.text_two in
  let init := push_init Demo2.repeated_query Demo.env Demo.two_values in
  In (lokiUrl Demo.env, init)
     (fetched (fst (respond w Demo2.repeated_query Demo.env))) /\
  exists s,
    streams (init_body init) = [s] /\
    stream s !! "app" = Some "api" /\
    stream s !! "env" = Some "prod" /\
    stream s !! "team" = None.
Proof.
  cbv zeta.
  assert (Hin : In (lokiUrl Demo.env,
                    push_init Demo2.repeated_query Demo.env Demo.two_values)
                  (fetched (fst (respond (Demo.world Demo.text_two)
                                   Demo2.repeated_query Demo.env))))
    by (left; vm_compute; reflexivity).
  split; [exact Hin|].
  destruct (X9_caller_labels _ _ _ _ _ Hin) as (s & Hs & Hlabels).
  exists s. split; [exact Hs|].
  rewrite !Hlabels by discriminate. repeat split; reflexivity.
Defined.

Lemma X10_given_timestamp_kept_witness :
  good_entry Demo2.stamped_entry = true /\
  run (Demo.world Demo.text_two) [] (process_entry Demo2.stamped_entry [])
  = ([], Normal [[JStr "1700000000000000001"; JStr "a"]]).
Proof.
  assert (Hgood : good_entry Demo2.stamped_entry = true) by (vm_compute; reflexivity).
  split; [exact Hgood|].
  exact (X10_given_timestamp_kept (Demo.world Demo.text_two) [] Demo2.stamped_entry []
           "1700000000000000001" Hgood eq_refl eq_refl).
Defined.

Lemma X11_values_of_valid_entries_witness :
  forallb good_entry Demo2.three_entries = true /\
  run (Demo2.world_ticking Demo.text_two) [E_request_text]
    (build_values Demo2.three_entries [])
  = ([E_request_text; E_date_now; E_date_now],
     Normal [[JStr "1700000000000000000"; JStr "a"];
             [JStr "1700000000000000001"; JStr "a"];
             [JStr "1700000000001000000"; JStr "c"]]).
Proof.
  assert (Hall : forallb good_entry Demo2.three_entries = true)
    by (vm_compute; reflexivity).
  split; [exact Hall|].
  rewrite (X11_values_of_valid_entries (Demo2.world_ticking Demo.text_two)
             Demo2.three_entries [E_request_text] [] Hall).
  vm_compute. reflexivity.
Defined.

Lemma X12_loop_stops_at_first_failure_witness :
  let w := Demo.world Demo.text_two in
  let first : jsval Z := JObj [("message", JStr "a")] in
  run w [] (build_values ([first] ++ JObj [] :: [JNull; first]) [])
  = run w [] (build_values ([first] ++ [JObj []]) []) /\
  run w [] (build_values ([first] ++ [JObj []]) [])
  = ([E_date_now], Returned (plain_response msg_missing_message 400)).
Proof.
  cbv zeta. split.
  - apply (X12_loop_stops_at_first_failure (Demo.world Demo.text_two) []
             [JObj [("message", JStr "a")]] [JNull; JObj [("message", JStr "a")]]
             (JObj []) []); vm_compute; reflexivity.
  - vm_compute. reflexivity.
Defined.

Lemma X13_entries_before_labels_witness :
  let w := Demo.world Demo.text_second_without_message in
  let request := Demo.post [] Demo.no_headers in
  submission w request Demo.env Demo.data_second_without_message /\
  validateLabelName "_bad_" = false /\
  respond w (with_query request [("_bad_", "x")]) Demo.env
  = respond w request Demo.env.
Proof.
  cbv zeta.
  assert (Hsub : submission (Demo.world Demo.text_second_without_message)
                   (Demo.post [] Demo.no_headers) Demo.env
                   Demo.data_second_without_message).
  { split; [reflexivity|]. split; [reflexivity|].
    eexists. split; [reflexivity|]. split; vm_compute; reflexivity. }
  split; [exact Hsub|]. split; [vm_compute; reflexivity|].
  apply (X13_entries_before_labels _ _ _ _ _ Hsub). vm_compute. reflexivity.
Defined.

Lemma X14_message_checked_first_witness :
  let entry : jsval Z := JObj [("metadata", JStr "x"); ("timestamp", JObj [])] in
  nullish entry = false /\ has_message entry = false /\
  run (Demo.world Demo.text_two) [] (process_entry entry [])
  = ([], Returned (plain_response msg_missing_message 400)).
Proof.
  cbv zeta. split; [reflexivity|]. split; [reflexivity|].
  exact (X14_message_checked_first (Demo.world Demo.text_two) []
           (JObj [("metadata", JStr "x"); ("timestamp", JObj [])]) [] eq_refl eq_refl).
Defined.

Lemma X15_preflight_witness :
  let request := Demo2.with_method "OPTIONS" in
  method request = "OPTIONS" /\
  settle (Demo.world Demo.text_two) (worker_fetch request Demo.env_no_password)
  = ([], inr (new_Response None 204 EmptyString
                [("Access-Control-Allow-Origin", "*");
                 ("Access-Control-Allow-Methods", "POST, OPTIONS");
                 ("Access-Control-Allow-Headers", "Content-Type");
                 ("Access-Control-Max-Age", "86400")])).
Proof.
  cbv zeta. split; [reflexivity|].
  exact (proj1 (X15_preflight (Demo.world Demo.text_two)
                  (Demo2.with_method "OPTIONS") Demo.env_no_password eq_refl)).
Defined.

Lemma X16_listener_without_env_witness :
  let event := {| event_request := Demo.two_request; event_env := None |} in
  method (event_request event) = "POST" /\
  settle (Demo.world Demo.text_two) (listener event)
  = ([], inr (plain_response
                "Server configuration error: Missing Loki credentials" 500)).
Proof.
  cbv zeta. split; [reflexivity|].
  exact (proj1 (X16_listener_without_env (Demo.world Demo.text_two)
                  {| event_request := Demo.two_request; event_env := None |}
                  eq_refl) eq_refl).
Defined.

